(** * deploy.py: build, package, upload and deploy to Elastic Beanstalk

    A shallow embedding of [deploy.py].  The script is one thread of control
    that talks to the outside (the file system, the clock, the build process,
    S3, STS and Elastic Beanstalk).  Every answer the outside gives is a field
    of a [World]; every effect the script performs is an [event] of its trace;
    the one module-level variable the script mutates,
    [elasticbeanstalk_files_list], is threaded as explicit state. *)

From Stdlib Require Import String Ascii List Bool Arith ZArith Lia.
Import ListNotations.
Local Open Scope string_scope.
Local Open Scope list_scope.

Set Implicit Arguments.

(** Python's [+] on [str]; [++] stays the append of lists. *)
Infix "+:+" := String.append (at level 60, right associativity).

(** ** Python [str] operations used by the script *)

Module Str.

(** [s[n:]] for [0 <= n]. *)
Fixpoint drop (n : nat) (s : string) : string :=
  match n, s with
  | O, _ => s
  | S _, EmptyString => EmptyString
  | S n', String _ r => drop n' r
  end.

(** [s[:n]] for [0 <= n]. *)
Fixpoint take (n : nat) (s : string) : string :=
  match n, s with
  | O, _ => EmptyString
  | S _, EmptyString => EmptyString
  | S n', String c r => String c (take n' r)
  end.

(** [s.rfind(c)]: the highest index of [c] in [s], [-1] when absent. *)
Fixpoint rfind (c : ascii) (s : string) : Z :=
  match s with
  | EmptyString => (-1)%Z
  | String a r =>
      let i := rfind c r in
      if (0 <=? i)%Z then (i + 1)%Z
      else if Ascii.eqb a c then 0%Z else (-1)%Z
  end.

(** [c in s] for a one-character [c]. *)
Fixpoint contains (c : ascii) (s : string) : bool :=
  match s with
  | EmptyString => false
  | String a r => Ascii.eqb a c || contains c r
  end.

(** [s.startswith(p)]. *)
Definition startswith (p s : string) : bool := String.prefix p s.

(** [s.endswith(p)]. *)
Definition endswith (p s : string) : bool :=
  (String.length p <=? String.length s)%nat
  && String.eqb (drop (String.length s - String.length p) s) p.

(** [s.split(sep)] for a one-character separator; [cur] is the component
    being read. *)
Fixpoint split_from (sep : ascii) (cur s : string) : list string :=
  match s with
  | EmptyString => [cur]
  | String a r =>
      if Ascii.eqb a sep then cur :: split_from sep EmptyString r
      else split_from sep (cur +:+ String a EmptyString) r
  end.

Definition split (sep : ascii) (s : string) : list string :=
  split_from sep EmptyString s.

(** [sep.join(l)]. *)
Fixpoint join (sep : string) (l : list string) : string :=
  match l with
  | [] => EmptyString
  | [x] => x
  | x :: r => x +:+ sep +:+ join sep r
  end.

Definition nl : string := String (ascii_of_nat 10) EmptyString.

End Str.

(** ** [os.path] (posixpath) *)

Module Posixpath.

Definition sep : ascii := "/"%char.
Definition extsep : ascii := "."%char.

(** [basename(p)]: [i = p.rfind('/') + 1; return p[i:]]. *)
Definition basename (p : string) : string :=
  let i := (Str.rfind sep p + 1)%Z in
  Str.drop (Z.to_nat i) p.

(** The scan of [genericpath._splitext] over the characters between the
    last separator and the last dot: [true] when one of them is not a dot
    (the dot then starts an extension), [false] when all are dots.  An
    index past the end reads the empty slice, which is not a dot. *)
Fixpoint splitext_scan (p : string) (filenameIndex : nat) (steps : nat)
  : bool :=
  match steps with
  | O => false
  | S steps' =>
      match String.get filenameIndex p with
      | Some c =>
          if Ascii.eqb c extsep
          then splitext_scan p (S filenameIndex) steps'
          else true
      | None => true
      end
  end.

(** [splitext(p)]:
<<
    sepIndex = p.rfind(sep)
    dotIndex = p.rfind(extsep)
    if dotIndex > sepIndex:
        filenameIndex = sepIndex + 1
        while filenameIndex < dotIndex:
            if p[filenameIndex:filenameIndex+1] != extsep:
                return p[:dotIndex], p[dotIndex:]
            filenameIndex += 1
    return p, p[:0]
>> *)
Definition splitext (p : string) : string * string :=
  let sepIndex := Str.rfind sep p in
  let dotIndex := Str.rfind extsep p in
  if (sepIndex <? dotIndex)%Z then
    let filenameIndex := Z.to_nat (sepIndex + 1) in
    if splitext_scan p filenameIndex (Z.to_nat dotIndex - filenameIndex)
    then (Str.take (Z.to_nat dotIndex) p, Str.drop (Z.to_nat dotIndex) p)
    else (p, EmptyString)
  else (p, EmptyString).

(** [join(a, b)] for a relative [b] and an [a] that does not end in a
    separator, the only use [glob] makes of it here. *)
Definition join (a b : string) : string := a +:+ "/" +:+ b.

(** The component loop of [normpath]. *)
Fixpoint normpath_comps (initial_slashes : nat) (comps new_comps : list string)
  : list string :=
  match comps with
  | [] => new_comps
  | comp :: rest =>
      if String.eqb comp "" || String.eqb comp "." then
        normpath_comps initial_slashes rest new_comps
      else if negb (String.eqb comp "..")
              || ((initial_slashes =? 0)%nat
                  && match new_comps with [] => true | _ => false end)
              || match rev new_comps with
                 | last :: _ => String.eqb last ".."
                 | [] => false
                 end
      then normpath_comps initial_slashes rest (new_comps ++ [comp])
      else normpath_comps initial_slashes rest (removelast new_comps)
  end.

(** [normpath(path)]. *)
Definition normpath (path : string) : string :=
  if String.eqb path "" then "."
  else
    let initial_slashes :=
      if Str.startswith "/" path then
        if Str.startswith "//" path && negb (Str.startswith "///" path)
        then 2%nat else 1%nat
      else 0%nat in
    let comps := normpath_comps initial_slashes (Str.split sep path) [] in
    let path' := Str.join "/" comps in
    let path'' :=
      match initial_slashes with
      | 0%nat => path'
      | 1%nat => "/" +:+ path'
      | _ => "//" +:+ path'
      end in
    if String.eqb path'' "" then "." else path''.

End Posixpath.

(** ** [time.strftime] *)

Module Time.

(** The fields of [time.struct_time] that the format reads. *)
Record struct_time := {
  tm_year : nat;
  tm_mon : nat;
  tm_mday : nat;
  tm_hour : nat;
  tm_min : nat;
  tm_sec : nat
}.

Definition digit (d : nat) : ascii := ascii_of_nat (48 + d).

(** Decimal digits of [n], most significant first, in front of [acc]. *)
Fixpoint decimal_from (fuel n : nat) (acc : string) : string :=
  match fuel with
  | O => acc
  | S fuel' =>
      let acc' := String (digit (n mod 10)) acc in
      if (n <? 10)%nat then acc' else decimal_from fuel' (n / 10) acc'
  end.

(** [%d] *)
Definition decimal (n : nat) : string := decimal_from (S n) n EmptyString.

(** [%02d] *)
Definition pad2 (n : nat) : string :=
  if (n <? 10)%nat then String (digit 0) (decimal n) else decimal n.

(** One conversion specification; the ones the script does not use are
    left as they stand. *)
Definition directive (c : ascii) (t : struct_time) : string :=
  if Ascii.eqb c "Y" then decimal (tm_year t)
  else if Ascii.eqb c "m" then pad2 (tm_mon t)
  else if Ascii.eqb c "d" then pad2 (tm_mday t)
  else if Ascii.eqb c "H" then pad2 (tm_hour t)
  else if Ascii.eqb c "M" then pad2 (tm_min t)
  else if Ascii.eqb c "S" then pad2 (tm_sec t)
  else String "%" (String c EmptyString).

(** [strftime(format, t)]. *)
Fixpoint strftime (format : string) (t : struct_time) : string :=
  match format with
  | EmptyString => EmptyString
  | String a r =>
      if Ascii.eqb a "%" then
        match r with
        | String c r' => directive c t +:+ strftime r' t
        | EmptyString => String a EmptyString
        end
      else String a (strftime r t)
  end.

(** What the clock of the machine answers at the moment it is read:
    [localtime()] and [gmtime()] of the same instant.  They differ by the
    UTC offset of the machine's time zone. *)
Record clock := {
  localtime : struct_time;
  gmtime : struct_time
}.

End Time.

(** ** [glob.glob] over one directory *)

Module Glob.

(** [_ishidden]: [path[0] == '.'].  Directory entries are never empty. *)
Definition ishidden (name : string) : bool := Str.startswith "." name.

(** [fnmatch] of a name against the pattern ['*' + suffix], which
    [fnmatch.translate] turns into the regular expression
    [(?s:.*suffix)\Z] for a literal suffix. *)
Definition fnmatch_star (suffix name : string) : bool :=
  Str.endswith suffix name.

(** [glob(dirname + '/*' + suffix)] where [listing] is what
    [os.scandir(dirname)] yields, in its order ([[]] when the directory
    is missing or unreadable): hidden names are dropped because the
    pattern does not start with a dot, the others are matched and joined
    to [dirname]. *)
Definition glob (dirname suffix : string) (listing : list string)
  : list string :=
  map (Posixpath.join dirname)
      (filter (fnmatch_star suffix)
              (filter (fun x => negb (ishidden x)) listing)).

End Glob.

(** ** [zipfile.ZipFile.write] *)

Module Zipfile.

(** What [os.stat] and [open] find at a path. *)
Inductive file :=
| Regular (content : string)
| Directory.

(** A member of an archive. *)
Record entry := {
  filename : string;
  data : string
}.

(** [while arcname[0] in (os.sep, os.altsep): arcname = arcname[1:]];
    [None] is the [IndexError] of [arcname[0]] on an exhausted name. *)
Fixpoint strip_seps (arcname : string) : option string :=
  match arcname with
  | EmptyString => None
  | String a r =>
      if Ascii.eqb a Posixpath.sep then strip_seps r else Some arcname
  end.

(** The member name [ZipInfo.from_file] gives a path: normalised, without
    leading separators, and with a trailing slash for a directory. *)
Definition arcname (path : string) (isdir : bool) : option string :=
  match strip_seps (Posixpath.normpath path) with
  | Some a => Some (if isdir then a +:+ "/" else a)
  | None => None
  end.

End Zipfile.

(** ** The script *)

(** *** Outcomes and exceptions *)

(** The Python exceptions that can end a run of the part modelled here. *)
Inductive exception :=
| IndexError          (* subscript of an empty list *)
| FileNotFoundError   (* a path that does not exist *)
| ClientError         (* botocore: the service refused a request *)
| OSError.            (* any other failure of the operating system *)

Definition exception_name (e : exception) : string :=
  match e with
  | IndexError => "IndexError"
  | FileNotFoundError => "FileNotFoundError"
  | ClientError => "ClientError"
  | OSError => "OSError"
  end.

(** The answer of an outside collaborator to one call. *)
Inductive reply (A : Type) :=
| Returns (a : A)
| Raises (e : exception).
Arguments Raises {A} e.

(** How a piece of the script ends.  [Polling] is not a Python outcome: it
    marks a run that was still inside the wait loop when the model stopped
    following it. *)
Inductive outcome (A : Type) :=
| Ok (a : A)
| Raised (e : exception)
| Polling.
Arguments Raised {A} e.
Arguments Polling {A}.

(** *** Remote data *)

Record application := {
  ApplicationName : string
}.

Record environment := {
  EnvironmentName : string;
  Status : string
}.

(** The output of the build process. *)
Record process := {
  stdout : string;
  stderr : string;
  returncode : Z
}.

(** The requests the script sends, with the keyword arguments it passes. *)
Inductive request :=
| describe_applications (ApplicationNames : list string)
| create_application (ApplicationName Description : string)
| get_caller_identity
| buckets_all
| create_bucket (ACL Bucket LocationConstraint : string)
| put_object (Bucket Body Key : string)
| create_application_version
    (ApplicationName VersionLabel S3Bucket S3Key : string)
    (AutoCreateApplication Process : bool)
| describe_environments (ApplicationName : string)
    (EnvironmentNames : list string)
| create_environment
    (ApplicationName EnvironmentName Description CNAMEPrefix VersionLabel
       : string)
| update_environment (ApplicationName EnvironmentName VersionLabel : string).

(** What came back. *)
Inductive response :=
| Applications (l : list application)
| Environments (l : list environment)
| Account (id : string)
| Buckets (names : list string)
| Document (text : string)
| Failure (e : exception).

(** *** Trace *)

(** The [print] statements of the script, by the line that prints. *)
Inductive message :=
| MsgCreateApplication (application_name : string)
| MsgResponse (text : string)
| MsgBuild
| MsgResult (text : string)
| MsgPackage
| MsgZipped (app_ver_pkg_name : string)
| MsgUpload
| MsgObject (text : string)
| MsgCreateVersion (application_version_package_name application_name : string)
| MsgWaiting (environment_name : string)
| MsgCreateEnvironment (environment_name application_name : string)
| MsgUpdateEnvironment (environment_name application_name : string).

(** The text each of them writes ([print] adds the final newline). *)
Definition render (m : message) : string :=
  match m with
  | MsgCreateApplication a =>
      Str.nl +:+ "Create '" +:+ a +:+ "' Elastic Beanstalk application:"
      +:+ Str.nl
  | MsgResponse t => t
  | MsgBuild => Str.nl +:+ "Build the application:" +:+ Str.nl
  | MsgResult t => t
  | MsgPackage =>
      Str.nl +:+ "Create the ZIP package for the new application version:"
      +:+ Str.nl
  | MsgZipped p =>
      "All application files zipped successfully to '" +:+ p
      +:+ ".zip' package" +:+ Str.nl
  | MsgUpload =>
      Str.nl
      +:+ "Upload the application version package to a source bundle S3 bucket:"
      +:+ Str.nl
  | MsgObject t => t
  | MsgCreateVersion p a =>
      Str.nl +:+ "Create '" +:+ p +:+ "' application version for '" +:+ a
      +:+ "' Elastic Beanstalk application:" +:+ Str.nl
  | MsgWaiting e =>
      Str.nl +:+ "There is an operation in progress in '" +:+ e
      +:+ "' environment. Waiting for it to be completed..." +:+ Str.nl
  | MsgCreateEnvironment e a =>
      Str.nl +:+ "Create '" +:+ e +:+ "' deployment environment for '" +:+ a
      +:+ "' Elastic Beanstalk application:" +:+ Str.nl
  | MsgUpdateEnvironment e a =>
      Str.nl +:+ "Update '" +:+ e +:+ "' deployment environment for '" +:+ a
      +:+ "' Elastic Beanstalk application:" +:+ Str.nl
  end.

(** What the script does to the outside, in order. *)
Inductive event :=
| Print (m : message)
| Rmtree (path : string)
| Chdir
| Popen (args : list string)
| GlobDir (pathname : string)
| ZipWritten (name : string) (entries : list Zipfile.entry)
| Api (rq : request) (rs : response)
| Sleep (seconds : nat).

Definition trace := list event.

(** *** The outside *)

(** [arguments_parser()]: the parsed command line. *)
Record Arguments := {
  application_name : string;
  environment_name : string;
  profile : string
}.

(** Everything a run reads from outside the process.  Lines 121 to 127
    (change of directory, command line, session) are taken as done: their
    results are [arguments] and [region_name]. *)
Record World := {
  arguments : Arguments;
  (** [session.region_name] *)
  region_name : string;
  (** [elasticbeanstalk.describe_applications(...)['Applications']] *)
  eb_applications : reply (list application);
  eb_create_application : reply string;
  (** [Popen(['./gradlew', 'build'], ...).communicate()] and the exit
      status of the process *)
  gradlew_build : reply process;
  (** the entries of [./build/libs] once the build is over *)
  libs : list string;
  (** the files of the project tree once the build is over *)
  stat : string -> option Zipfile.file;
  now : Time.clock;
  (** [sts.get_caller_identity()['Account']] *)
  sts_account : reply string;
  (** the names of [s3.buckets.all()] *)
  s3_buckets : reply (list string);
  s3_create_bucket : reply string;
  s3_put_object : reply string;
  eb_create_application_version : reply string;
  (** [describe_environments(...)['Environments']] at the first poll (0)
      and at each later one *)
  eb_environments : nat -> reply (list environment);
  eb_create_environment : reply string;
  eb_update_environment : reply string
}.

(** *** Module-level state *)

(** The module-level variables that are assigned more than once: only the
    list of files to zip, which [package_application] appends to. *)
Record globals := {
  elasticbeanstalk_files_list : list string
}.

Definition build_path : string := "./build".
Definition application_path : string := build_path +:+ "/libs".
Definition source_bundle_s3_bucket_prefix : string := "elasticbeanstalk".

(** The state of a fresh process (line 14). *)
Definition initial_globals : globals :=
  {| elasticbeanstalk_files_list :=
       ["./Dockerrun.aws.json"; "./Dockerfile"; "env.yaml"] |}.

(** *** The monad of the script: trace, module state, outcome *)

Definition M (A : Type) : Type := globals -> trace * globals * outcome A.

Definition ret {A} (a : A) : M A := fun g => ([], g, Ok a).

Definition bind {A B} (m : M A) (k : A -> M B) : M B :=
  fun g =>
    match m g with
    | (t1, g1, Ok a) =>
        match k a g1 with
        | (t2, g2, o) => (t1 ++ t2, g2, o)
        end
    | (t1, g1, Raised e) => (t1, g1, Raised e)
    | (t1, g1, Polling) => (t1, g1, Polling)
    end.

Notation "x <- m ;; k" := (bind m (fun x => k))
  (at level 61, m at next level, right associativity).
Notation "m ;; k" := (bind m (fun _ => k))
  (at level 61, right associativity).

Definition emit (e : event) : M unit := fun g => ([e], g, Ok tt).
Definition raise {A} (e : exception) : M A := fun g => ([], g, Raised e).
Definition still_polling {A} : M A := fun g => ([], g, Polling).
Definition print (m : message) : M unit := emit (Print m).
Definition sleep (seconds : nat) : M unit := emit (Sleep seconds).

(** One request: the exchange is recorded, a refusal is raised. *)
Definition call {A} (rq : request) (inj : A -> response) (r : reply A) : M A :=
  match r with
  | Returns a => emit (Api rq (inj a)) ;; ret a
  | Raises e => emit (Api rq (Failure e)) ;; raise e
  end.

Definition trace_of {A} (r : trace * globals * outcome A) : trace :=
  fst (fst r).
Definition globals_of {A} (r : trace * globals * outcome A) : globals :=
  snd (fst r).
Definition outcome_of {A} (r : trace * globals * outcome A) : outcome A :=
  snd r.

Section Script.

Variable w : World.

(** *** Lines 34 to 38 *)
Definition print_result (output error : string) : M unit :=
  (if String.eqb output "" then ret tt else print (MsgResult output)) ;;
  (if String.eqb error "" then ret tt else print (MsgResult error)).

(** [print_response]: the JSON text of the response. *)
Definition print_response (text : string) : M unit :=
  print (MsgResponse text).

(** *** Lines 75 to 80.  The exit status of the process is never read. *)
Definition build_application : M unit :=
  emit (Rmtree build_path) ;;
  emit Chdir ;;
  emit (Popen ["./gradlew"; "build"]) ;;
  match gradlew_build w with
  | Returns p => print_result (stdout p) (stderr p)
  | Raises e => raise e
  end.

(** [l[0]] *)
Definition subscript0 {A} (l : list A) : M A :=
  match l with
  | x :: _ => ret x
  | [] => raise IndexError
  end.

(** The [for file in ...: zip.write(file)] loop: the members written so
    far, and the exception that stopped the loop if one did.  [os.stat]
    comes first, then the member name. *)
Fixpoint zip_write_all (files : list string) (written : list Zipfile.entry)
  : list Zipfile.entry * option exception :=
  match files with
  | [] => (written, None)
  | file :: rest =>
      match stat w file with
      | None => (written, Some FileNotFoundError)
      | Some f =>
          let isdir :=
            match f with Zipfile.Directory => true | _ => false end in
          let content :=
            match f with Zipfile.Regular c => c | _ => "" end in
          match Zipfile.arcname file isdir with
          | None => (written, Some IndexError)
          | Some a =>
              zip_write_all rest
                (written
                 ++ [{| Zipfile.filename := a; Zipfile.data := content |}])
          end
      end
  end.

(** [with ZipFile(name, 'w') as zip: ...]: the archive is closed, and so
    exists with the members written so far, also when the body raises. *)
Definition with_ZipFile (name : string) (files : list string) : M unit :=
  match zip_write_all files [] with
  | (entries, None) => emit (ZipWritten name entries)
  | (entries, Some e) => emit (ZipWritten name entries) ;; raise e
  end.

Definition get_files_list : M (list string) :=
  fun g => ([], g, Ok (elasticbeanstalk_files_list g)).

(** [elasticbeanstalk_files_list.append(x)] *)
Definition files_list_append (x : string) : M unit :=
  fun g =>
    ([], {| elasticbeanstalk_files_list :=
              elasticbeanstalk_files_list g ++ [x] |}, Ok tt).

(** *** Lines 85 to 94.  [time.strftime] without a time argument formats
    [localtime()]. *)
Definition package_application : M string :=
  emit (GlobDir (application_path +:+ "/*.jar")) ;;
  app_file <- subscript0 (Glob.glob application_path ".jar" (libs w)) ;;
  files_list_append app_file ;;
  let app_name := fst (Posixpath.splitext (Posixpath.basename app_file)) in
  let app_ver_pkg_name :=
    app_name +:+ "-"
    +:+ Time.strftime "%Y%m%d-%H%M%S" (Time.localtime (now w)) in
  files <- get_files_list ;;
  with_ZipFile (app_ver_pkg_name +:+ ".zip") files ;;
  print (MsgZipped app_ver_pkg_name) ;;
  ret app_ver_pkg_name.

(** [s3.Bucket(s3_bucket) in s3.buckets.all()] *)
Definition bucket_in (s3_bucket : string) (all : list string) : bool :=
  existsb (String.eqb s3_bucket) all.

(** *** Lines 99 to 114.  The package name is the module-level
    [application_version_package_name], assigned once at line 143; the
    file opened as [Body] is the archive of that name, which
    [package_application] has written. *)
Definition upload_application_version
    (application_version_package_name : string) : M string :=
  account <- call get_caller_identity Account (sts_account w) ;;
  let s3_bucket :=
    source_bundle_s3_bucket_prefix +:+ "-" +:+ region_name w +:+ "-"
    +:+ account in
  all <- call buckets_all Buckets (s3_buckets w) ;;
  (if negb (bucket_in s3_bucket all) then
     call (create_bucket "private" s3_bucket (region_name w)) Document
          (s3_create_bucket w) ;;
     ret tt
   else ret tt) ;;
  response <-
    call (put_object s3_bucket
            (application_version_package_name +:+ ".zip")
            (application_version_package_name +:+ ".zip"))
         Document (s3_put_object w) ;;
  print (MsgObject response) ;;
  ret s3_bucket.

(** *** Lines 130 to 137 *)
Definition ensure_application : M unit :=
  let application_name := application_name (arguments w) in
  apps <-
    call (describe_applications [application_name]) Applications
         (eb_applications w) ;;
  match apps with
  | [] =>
      print (MsgCreateApplication application_name) ;;
      response <-
        call (create_application application_name
                (application_name +:+ " Application"))
             Document (eb_create_application w) ;;
      print_response response
  | _ :: _ => ret tt
  end.

(** *** Lines 148 to 162 *)
Definition register_version
    (application_version_package_name source_bundle_s3_bucket : string)
  : M unit :=
  let application_name := application_name (arguments w) in
  print (MsgCreateVersion application_version_package_name
           application_name) ;;
  response <-
    call (create_application_version application_name
            application_version_package_name source_bundle_s3_bucket
            (application_version_package_name +:+ ".zip") false true)
         Document (eb_create_application_version w) ;;
  print_response response ;;
  sleep 10.

(** Line 164 *)
Definition full_environment_name : string :=
  application_name (arguments w) +:+ "-" +:+ environment_name (arguments w).

(** The condition of the [while] at line 169. *)
Definition in_progress (environment_configuration : list environment)
  : bool :=
  match environment_configuration with
  | [] => false
  | e :: _ =>
      negb (String.eqb (Status e) "Ready")
      && negb (String.eqb (Status e) "Terminated")
  end.

(** Lines 167 and 174: poll number [k]. *)
Definition poll (k : nat) : M (list environment) :=
  call (describe_environments (application_name (arguments w))
          [full_environment_name])
       Environments (eb_environments w k).

(** *** Lines 169 to 174.  The loop has no bound of its own; [fuel] is how
    many iterations the model follows, [k] the number of the last poll. *)
Fixpoint wait_loop (fuel k : nat)
    (environment_configuration : list environment)
    (wait_message_printed : bool) : M (list environment) :=
  if in_progress environment_configuration then
    match fuel with
    | O => still_polling
    | S fuel' =>
        (if negb wait_message_printed
         then print (MsgWaiting full_environment_name)
         else ret tt) ;;
        sleep 30 ;;
        environment_configuration' <- poll (S k) ;;
        wait_loop fuel' (S k) environment_configuration' true
    end
  else ret environment_configuration.

(** Lines 166 to 174 *)
Definition await_environment (fuel : nat) : M (list environment) :=
  environment_configuration <- poll 0 ;;
  wait_loop fuel 0 environment_configuration false.

(** The condition of the [if] at line 176. *)
Definition absent_or_terminated
    (environment_configuration : list environment) : bool :=
  match environment_configuration with
  | [] => true
  | e :: _ => String.eqb (Status e) "Terminated"
  end.

(** *** Lines 176 to 192 *)
Definition create_or_update
    (application_version_package_name : string)
    (environment_configuration : list environment) : M unit :=
  let application_name := application_name (arguments w) in
  let environment_name := full_environment_name in
  response <-
    (if absent_or_terminated environment_configuration then
       print (MsgCreateEnvironment environment_name application_name) ;;
       call (create_environment application_name environment_name
               (environment_name +:+ " Environment") environment_name
               application_version_package_name)
            Document (eb_create_environment w)
     else
       print (MsgUpdateEnvironment environment_name application_name) ;;
       call (update_environment application_name environment_name
               application_version_package_name)
            Document (eb_update_environment w)) ;;
  print_response response.

(** *** Lines 130 to 162: application, build, package, upload, version.
    [application_version_package_name] stays in scope for what follows. *)
Definition register_new_version : M string :=
  ensure_application ;;
  print MsgBuild ;;
  build_application ;;
  print MsgPackage ;;
  application_version_package_name <- package_application ;;
  print MsgUpload ;;
  source_bundle_s3_bucket <-
    upload_application_version application_version_package_name ;;
  register_version application_version_package_name
    source_bundle_s3_bucket ;;
  ret application_version_package_name.

(** *** Lines 130 to 192: the run *)
Definition main (fuel : nat) : M unit :=
  application_version_package_name <- register_new_version ;;
  environment_configuration <- await_environment fuel ;;
  create_or_update application_version_package_name
    environment_configuration.

End Script.

(** ** Reading a trace *)

Fixpoint requests (t : trace) : list request :=
  match t with
  | [] => []
  | Api rq _ :: t' => rq :: requests t'
  | _ :: t' => requests t'
  end.

Definition is_create_application (rq : request) : bool :=
  match rq with create_application _ _ => true | _ => false end.

Definition is_create_application_version (rq : request) : bool :=
  match rq with
  | create_application_version _ _ _ _ _ _ => true
  | _ => false
  end.

Definition is_create_environment (rq : request) : bool :=
  match rq with create_environment _ _ _ _ _ => true | _ => false end.

Definition is_update_environment (rq : request) : bool :=
  match rq with update_environment _ _ _ => true | _ => false end.

(** A request that changes the environment. *)
Definition is_environment_request (rq : request) : bool :=
  is_create_environment rq || is_update_environment rq.

Definition is_put_object (rq : request) : bool :=
  match rq with put_object _ _ _ => true | _ => false end.

(** The environment descriptions the polls returned, oldest first. *)
Fixpoint observations (t : trace) : list (list environment) :=
  match t with
  | [] => []
  | Api (describe_environments _ _) (Environments l) :: t' =>
      l :: observations t'
  | _ :: t' => observations t'
  end.

(** The description seen last after [t], when [seen] was the last before. *)
Definition seen_after (seen : option (list environment)) (t : trace)
  : option (list environment) :=
  last (map Some (observations t)) seen.

(** The last environment description seen in [t], if any. *)
Definition last_observed (t : trace) : option (list environment) :=
  seen_after None t.

(** The monitor of the invariant on the environment: every request that
    changes the environment comes when the last description seen is a
    quiescent one.  [seen] is the last description before [t]. *)
Fixpoint quiescent_at_requests (seen : option (list environment)) (t : trace)
  : bool :=
  match t with
  | [] => true
  | Api (describe_environments _ _) (Environments l) :: t' =>
      quiescent_at_requests (Some l) t'
  | Api rq _ :: t' =>
      (if is_environment_request rq then
         match seen with
         | Some l => negb (in_progress l)
         | None => false
         end
       else true)
      && quiescent_at_requests seen t'
  | _ :: t' => quiescent_at_requests seen t'
  end.

Definition is_waiting_notice (e : event) : bool :=
  match e with Print (MsgWaiting _) => true | _ => false end.

(** How many times the notice of line 171 was printed. *)
Definition waiting_notices (t : trace) : nat :=
  length (filter is_waiting_notice t).

(** The lengths of the pauses, in order. *)
Fixpoint sleeps (t : trace) : list nat :=
  match t with
  | [] => []
  | Sleep s :: t' => s :: sleeps t'
  | _ :: t' => sleeps t'
  end.

(** The archives written, in order. *)
Fixpoint archives (t : trace) : list (string * list Zipfile.entry) :=
  match t with
  | [] => []
  | ZipWritten name entries :: t' => (name, entries) :: archives t'
  | _ :: t' => archives t'
  end.

(** The same world with another exit status of the build process. *)
Definition with_returncode (w : World) (rc : Z) : World :=
  {| arguments := arguments w;
     region_name := region_name w;
     eb_applications := eb_applications w;
     eb_create_application := eb_create_application w;
     gradlew_build :=
       match gradlew_build w with
       | Returns p =>
           Returns {| stdout := stdout p; stderr := stderr p;
                      returncode := rc |}
       | Raises e => Raises e
       end;
     libs := libs w;
     stat := stat w;
     now := now w;
     sts_account := sts_account w;
     s3_buckets := s3_buckets w;
     s3_create_bucket := s3_create_bucket w;
     s3_put_object := s3_put_object w;
     eb_create_application_version := eb_create_application_version w;
     eb_environments := eb_environments w;
     eb_create_environment := eb_create_environment w;
     eb_update_environment := eb_update_environment w |}.

(** No request of the kind [f]. *)
Definition no_request (f : request -> bool) (e : event) : Prop :=
  match e with Api rq _ => f rq = false | _ => True end.

(** The events of lines 130 to 162: no poll of the environment, no request
    that changes it, no waiting notice. *)
Definition prelude_event (e : event) : Prop :=
  match e with
  | Api (describe_environments _ _) _ => False
  | Api rq _ => is_environment_request rq = false
  | Print (MsgWaiting _) => False
  | _ => True
  end.

(** The request of the decision, by the description the wait ended on. *)
Definition decision (w : World) (label : string) (cfg : list environment)
  : request :=
  if absent_or_terminated cfg then
    create_environment (application_name (arguments w))
      (full_environment_name w)
      (full_environment_name w +:+ " Environment")
      (full_environment_name w) label
  else
    update_environment (application_name (arguments w))
      (full_environment_name w) label.

(** The request of a poll. *)
Definition poll_request (w : World) : request :=
  describe_environments (application_name (arguments w))
    [full_environment_name w].

(** What one turn of the loop writes before it polls again. *)
Definition turn_prefix (w : World) (printed : bool) : trace :=
  (if printed then [] else [Print (MsgWaiting (full_environment_name w))])
  ++ [Sleep 30].

Definition is_print (e : event) : bool :=
  match e with Print _ => true | _ => false end.

(** What a wait that polls again after each answer of [replies] does,
    prints apart: a pause of 30 seconds, then the poll. *)
Definition repolls (w : World) (replies : list response) : trace :=
  concat (map (fun rs => [Sleep 30; Api (poll_request w) rs]) replies).

(** The monitor of the upload: every put-object goes to a bucket that is
    known to exist, from a listing or because it has just been created.
    [known] are the buckets known to exist before [t]. *)
Fixpoint put_after_ensure (known : list string) (t : trace) : bool :=
  match t with
  | [] => true
  | Api buckets_all (Buckets l) :: t' => put_after_ensure (l ++ known) t'
  | Api (create_bucket _ b _) (Document _) :: t' =>
      put_after_ensure (b :: known) t'
  | Api (put_object b _ _) _ :: t' =>
      existsb (String.eqb b) known && put_after_ensure known t'
  | _ :: t' => put_after_ensure known t'
  end.

(** Lines 145 to 162, once the package has its name. *)
Definition upload_and_register (w : World) (pkg : string) : M string :=
  print MsgUpload ;;
  source_bundle_s3_bucket <- upload_application_version w pkg ;;
  register_version w pkg source_bundle_s3_bucket ;;
  ret pkg.

(** An event that neither writes an archive nor uploads. *)
Definition archive_free (e : event) : Prop :=
  match e with
  | ZipWritten _ _ => False
  | Api rq _ => is_put_object rq = false
  | _ => True
  end.

(** The name [package_application] gives the package of [app_file]
    (lines 88 and 89). *)
Definition package_name (w : World) (app_file : string) : string :=
  fst (Posixpath.splitext (Posixpath.basename app_file)) +:+ "-"
  +:+ Time.strftime "%Y%m%d-%H%M%S" (Time.localtime (now w)).

(** A directory entry that [glob] leaves out of the matches of [*.jar]. *)
Definition not_a_jar (entry : string) : Prop :=
  Glob.ishidden entry = true \/ Glob.fnmatch_star ".jar" entry = false.

(** A directory entry that [glob] returns for [*.jar]. *)
Definition is_a_jar (entry : string) : Prop :=
  Glob.ishidden entry = false /\ Glob.fnmatch_star ".jar" entry = true.

(** The timestamp [YYYYMMDD-HHMMSS] of a broken-down time. *)
Definition stamp (t : Time.struct_time) : string :=
  Time.decimal (Time.tm_year t) +:+ Time.pad2 (Time.tm_mon t)
  +:+ Time.pad2 (Time.tm_mday t) +:+ "-" +:+ Time.pad2 (Time.tm_hour t)
  +:+ Time.pad2 (Time.tm_min t) +:+ Time.pad2 (Time.tm_sec t).

(** A broken-down time of the years 1000 to 9999, as the clock gives it. *)
Definition four_digit_year (t : Time.struct_time) : Prop :=
  1000 <= Time.tm_year t < 10 * 1000
  /\ Time.tm_mon t < 100 /\ Time.tm_mday t < 100 /\ Time.tm_hour t < 100
  /\ Time.tm_min t < 100 /\ Time.tm_sec t < 100.

(** [e] is the member that [zip.write(file)] adds in the world [w]. *)
Definition zipped (w : World) (file : string) (e : Zipfile.entry) : Prop :=
  exists f,
    stat w file = Some f
    /\ Zipfile.arcname file
         (match f with Zipfile.Directory => true | _ => false end)
       = Some (Zipfile.filename e)
    /\ Zipfile.data e = match f with Zipfile.Regular c => c | _ => "" end.

(** The artifact a call of [package_application] locates, if any. *)
Definition located (w : World) : option string :=
  hd_error (Glob.glob application_path ".jar" (libs w)).

(** The artifacts located by successive calls, one world per call. *)
Definition artifacts (ws : list World) : list string :=
  flat_map (fun w => match located w with Some f => [f] | None => [] end) ws.

(** Successive calls of [package_application] in one process, whatever
    the caller does with the result of each: the module state after the
    last one. *)
Fixpoint package_calls (ws : list World) (g : globals) : globals :=
  match ws with
  | [] => g
  | w :: ws' => package_calls ws' (globals_of (package_application w g))
  end.

(** An event that writes no archive. *)
Definition zip_free (e : event) : Prop :=
  match e with ZipWritten _ _ => False | _ => True end.

(** ** Sample worlds *)

Module Sample.

Definition noon : Time.struct_time :=
  {| Time.tm_year := 2024; Time.tm_mon := 3; Time.tm_mday := 9;
     Time.tm_hour := 12; Time.tm_min := 5; Time.tm_sec := 7 |}.

(** The same instant two hours to the west: UTC. *)
Definition noon_utc : Time.struct_time :=
  {| Time.tm_year := 2024; Time.tm_mon := 3; Time.tm_mday := 9;
     Time.tm_hour := 10; Time.tm_min := 5; Time.tm_sec := 7 |}.

Definition tree (extra : list (string * Zipfile.file)) (path : string)
  : option Zipfile.file :=
  match find (fun kv => String.eqb (fst kv) path)
             (extra
              ++ [("./Dockerrun.aws.json", Zipfile.Regular "{}");
                  ("./Dockerfile", Zipfile.Regular "FROM openjdk");
                  ("env.yaml", Zipfile.Regular "env: prod")]) with
  | Some kv => Some (snd kv)
  | None => None
  end.

Definition env (status : string) : environment :=
  {| EnvironmentName := "shop-prod"; Status := status |}.

(** A machine at UTC+2 after a good build; no application, no
    environment, no bucket yet. *)
Definition fresh : World :=
  {| arguments :=
       {| application_name := "shop"; environment_name := "prod";
          profile := "default" |};
     region_name := "eu-west-1";
     eb_applications := Returns [];
     eb_create_application := Returns "{application}";
     gradlew_build :=
       Returns {| stdout := "BUILD SUCCESSFUL"; stderr := "";
                  returncode := 0 |};
     libs := ["shop-1.0.jar"];
     stat :=
       tree [("./build/libs/shop-1.0.jar", Zipfile.Regular "PK-jar")];
     now := {| Time.localtime := noon; Time.gmtime := noon_utc |};
     sts_account := Returns "123456789012";
     s3_buckets := Returns [];
     s3_create_bucket := Returns "{bucket}";
     s3_put_object := Returns "s3.Object";
     eb_create_application_version := Returns "{version}";
     eb_environments := fun _ => Returns [];
     eb_create_environment := Returns "{created}";
     eb_update_environment := Returns "{updated}" |}.

Definition with_libs (w : World) (l : list string) : World :=
  {| arguments := arguments w; region_name := region_name w;
     eb_applications := eb_applications w;
     eb_create_application := eb_create_application w;
     gradlew_build := gradlew_build w;
     libs := l; stat := stat w; now := now w;
     sts_account := sts_account w; s3_buckets := s3_buckets w;
     s3_create_bucket := s3_create_bucket w;
     s3_put_object := s3_put_object w;
     eb_create_application_version := eb_create_application_version w;
     eb_environments := eb_environments w;
     eb_create_environment := eb_create_environment w;
     eb_update_environment := eb_update_environment w |}.

Definition with_remote (w : World) (apps : list application)
    (buckets : list string) (polls : nat -> reply (list environment))
  : World :=
  {| arguments := arguments w; region_name := region_name w;
     eb_applications := Returns apps;
     eb_create_application := eb_create_application w;
     gradlew_build := gradlew_build w;
     libs := libs w; stat := stat w; now := now w;
     sts_account := sts_account w; s3_buckets := Returns buckets;
     s3_create_bucket := s3_create_bucket w;
     s3_put_object := s3_put_object w;
     eb_create_application_version := eb_create_application_version w;
     eb_environments := polls;
     eb_create_environment := eb_create_environment w;
     eb_update_environment := eb_update_environment w |}.

(** The application and the bucket exist; the environment is busy for
    the first [n] polls and [status] afterwards. *)
Definition busy_then (n : nat) (status : string) : World :=
  with_remote fresh [{| ApplicationName := "shop" |}]
    ["elasticbeanstalk-eu-west-1-123456789012"]
    (fun k => Returns [env (if (k <? n)%nat then "Updating" else status)]).

(** The build failed after the jar was assembled (a failing test). *)
Definition failed_build : World := with_returncode (busy_then 0 "Ready") 1.

(** The build left nothing in [./build/libs]. *)
Definition no_artifact : World := with_libs fresh [].

End Sample.

(** ** Further readings of a run *)

(** A run stops at a refused request: the refusal is the last event and
    its exception is how the run ends. *)
Definition stops_at_refusal {A} (r : trace * globals * outcome A) : Prop :=
  forall before rq e after,
    trace_of r = before ++ Api rq (Failure e) :: after ->
    after = [] /\ outcome_of r = Raised e.

Definition is_refusal (e : event) : bool :=
  match e with Api _ (Failure _) => true | _ => false end.

Module Scenario.

(** [Sample.busy_then 1 "Ready"] with the upload refused by S3. *)
Definition refused_put : World :=
  let w := Sample.busy_then 1 "Ready" in
  {| arguments := arguments w; region_name := region_name w;
     eb_applications := eb_applications w;
     eb_create_application := eb_create_application w;
     gradlew_build := gradlew_build w;
     libs := libs w; stat := stat w; now := now w;
     sts_account := sts_account w; s3_buckets := s3_buckets w;
     s3_create_bucket := s3_create_bucket w;
     s3_put_object := Raises ClientError;
     eb_create_application_version := eb_create_application_version w;
     eb_environments := eb_environments w;
     eb_create_environment := eb_create_environment w;
     eb_update_environment := eb_update_environment w |}.

End Scenario.

Module Broken.

Definition with_stat (w : World) (s : string -> option Zipfile.file)
  : World :=
  {| arguments := arguments w; region_name := region_name w;
     eb_applications := eb_applications w;
     eb_create_application := eb_create_application w;
     gradlew_build := gradlew_build w;
     libs := libs w; stat := s; now := now w;
     sts_account := sts_account w; s3_buckets := s3_buckets w;
     s3_create_bucket := s3_create_bucket w;
     s3_put_object := s3_put_object w;
     eb_create_application_version := eb_create_application_version w;
     eb_environments := eb_environments w;
     eb_create_environment := eb_create_environment w;
     eb_update_environment := eb_update_environment w |}.

(** [Sample.fresh] in a project tree without [env.yaml]. *)
Definition no_env_yaml : World :=
  with_stat Sample.fresh
    (fun p => if String.eqb p "env.yaml" then None
              else stat Sample.fresh p).

End Broken.

(** ** [create_session] (lines 49 to 70) *)

Module Session.

(** What [boto3] finds in the configuration of the machine, and the lines
    waiting on standard input. *)
Record Boto := {
  (** [boto3.session.Session().available_profiles] *)
  available_profiles : list string;
  (** whether [boto3.session.Session().get_credentials()] is not [None] *)
  has_credentials : bool;
  (** the lines [input()] will read, in order *)
  stdin : list string
}.

(** The session [create_session] builds, by the arguments it passes. *)
Inductive session :=
| Named (profile_name : string)
| Ambient
| Keys (aws_access_key_id aws_secret_access_key region_name : string).

(** What appears on the terminal: a [print], or the prompt of an
    [input]. *)
Inductive console :=
| Printed (text : string)
| Prompted (prompt : string).

(** How the function ends: with a session, or with the [EOFError] of an
    [input()] that found no line. *)
Inductive ending :=
| Created (s : session)
| EOFError.

Definition access_key_prompt : string :=
  "Enter the AWS_ACCESS_KEY_ID of the AWS account in which to deploy the application: ".
Definition secret_access_key_prompt : string :=
  "Enter the AWS_SECRET_ACCESS_KEY of the AWS account in which to deploy the application: ".
Definition region_prompt : string :=
  "Enter the region in which to deploy the application: ".

(** Lines 62 to 70: three questions, then the session from the answers. *)
Definition ask_for_keys (lines : list string) : list console * ending :=
  match lines with
  | [] => ([Prompted access_key_prompt], EOFError)
  | access_key :: lines1 =>
      match lines1 with
      | [] =>
          ([Prompted access_key_prompt; Prompted secret_access_key_prompt],
           EOFError)
      | secret_access_key :: lines2 =>
          match lines2 with
          | [] =>
              ([Prompted access_key_prompt;
                Prompted secret_access_key_prompt; Prompted region_prompt],
               EOFError)
          | region :: _ =>
              ([Prompted access_key_prompt;
                Prompted secret_access_key_prompt; Prompted region_prompt],
               Created (Keys access_key secret_access_key region))
          end
      end
  end.

(** Lines 49 to 70.  [and] does not evaluate its second operand when the
    first is false, so the profiles are read only for a profile other than
    ['default'] and the credentials only for ['default']. *)
Definition create_session (profile : string) (b : Boto)
  : list console * ending :=
  if negb (String.eqb profile "default")
     && negb (existsb (String.eqb profile) (available_profiles b))
  then
    let '(t, r) := ask_for_keys (stdin b) in
    (Printed (Str.nl +:+ "The '" +:+ profile +:+ "' profile does not exist!"
              +:+ Str.nl) :: t, r)
  else if String.eqb profile "default" && negb (has_credentials b)
  then
    let '(t, r) := ask_for_keys (stdin b) in
    (Printed (Str.nl +:+ "There is no AWS CLI configuration defined!"
              +:+ Str.nl) :: t, r)
  else if negb (String.eqb profile "default")
  then ([], Created (Named profile))
  else ([], Created Ambient).

Definition is_prompt (c : console) : bool :=
  match c with Prompted _ => true | Printed _ => false end.

(** The configuration can give a session for [profile] without asking. *)
Definition configured (profile : string) (b : Boto) : Prop :=
  (profile <> "default" /\ In profile (available_profiles b))
  \/ (profile = "default" /\ has_credentials b = true).

End Session.




(** A piece of the script that leaves the module-level variables alone. *)
Definition keeps_globals {A} (m : M A) : Prop :=
  forall g, globals_of (m g) = g.

(** The buckets known to exist after [t], when [known] were known
    before: those of the listings and those created. *)
Fixpoint known_after (known : list string) (t : trace) : list string :=
  match t with
  | [] => known
  | Api buckets_all (Buckets l) :: t' => known_after (l ++ known) t'
  | Api (create_bucket _ b _) (Document _) :: t' =>
      known_after (b :: known) t'
  | _ :: t' => known_after known t'
  end.

(** * Properties *)

(** ** The monad *)

Lemma bind_trace A B (m : M A) (k : A -> M B) g :
  trace_of (bind m k g)
  = trace_of (m g)
    ++ match outcome_of (m g) with
       | Ok a => trace_of (k a (globals_of (m g)))
       | _ => []
       end.
Proof.
  unfold bind, trace_of, outcome_of, globals_of.
  destruct (m g) as [[t1 g1] [a|e|]]; simpl.
  - destruct (k a g1) as [[t2 g2] o]; reflexivity.
  - now rewrite app_nil_r.
  - now rewrite app_nil_r.
Qed.

Lemma bind_outcome A B (m : M A) (k : A -> M B) g :
  outcome_of (bind m k g)
  = match outcome_of (m g) with
    | Ok a => outcome_of (k a (globals_of (m g)))
    | Raised e => Raised e
    | Polling => Polling
    end.
Proof.
  unfold bind, trace_of, outcome_of, globals_of.
  destruct (m g) as [[t1 g1] [a|e|]]; simpl; try reflexivity.
  destruct (k a g1) as [[t2 g2] o]; reflexivity.
Qed.

Lemma bind_globals A B (m : M A) (k : A -> M B) g :
  globals_of (bind m k g)
  = match outcome_of (m g) with
    | Ok a => globals_of (k a (globals_of (m g)))
    | _ => globals_of (m g)
    end.
Proof.
  unfold bind, trace_of, outcome_of, globals_of.
  destruct (m g) as [[t1 g1] [a|e|]]; simpl; try reflexivity.
  destruct (k a g1) as [[t2 g2] o]; reflexivity.
Qed.

(** A property of every event of a run follows from the same property of
    its parts. *)
Lemma bind_Forall A B (P : event -> Prop) (m : M A) (k : A -> M B) g :
  Forall P (trace_of (m g)) ->
  (forall a g', Forall P (trace_of (k a g'))) ->
  Forall P (trace_of (bind m k g)).
Proof.
  intros Hm Hk. rewrite bind_trace. apply Forall_app. split; [exact Hm|].
  destruct (outcome_of (m g)); auto.
Qed.

Lemma emit_Forall (P : event -> Prop) e g :
  P e -> Forall P (trace_of (emit e g)).
Proof. intros H. repeat constructor. exact H. Qed.

Lemma ret_Forall A (P : event -> Prop) (a : A) g :
  Forall P (trace_of (ret a g)).
Proof. constructor. Qed.

Lemma raise_Forall A (P : event -> Prop) e g :
  Forall P (trace_of (@raise A e g)).
Proof. constructor. Qed.

Lemma call_Forall A (P : event -> Prop) rq inj (r : reply A) g :
  (forall rs, P (Api rq rs)) -> Forall P (trace_of (call rq inj r g)).
Proof.
  intros H. destruct r; repeat constructor; apply H.
Qed.

(** Functions of the module state only. *)
Lemma call_globals A rq inj (r : reply A) g :
  globals_of (call rq inj r g) = g.
Proof. destruct r; reflexivity. Qed.

(** ** Reading a trace: append *)

Lemma requests_app t1 t2 : requests (t1 ++ t2) = requests t1 ++ requests t2.
Proof.
  induction t1 as [|[] t1 IH]; simpl; auto. now rewrite IH.
Qed.

Lemma observations_app t1 t2 :
  observations (t1 ++ t2) = observations t1 ++ observations t2.
Proof.
  induction t1 as [|e t1 IH]; simpl; auto.
  destruct e as [| | | | | |[] []| ]; simpl; auto. now rewrite IH.
Qed.


Lemma archives_app t1 t2 : archives (t1 ++ t2) = archives t1 ++ archives t2.
Proof.
  induction t1 as [|[] t1 IH]; simpl; auto. now rewrite IH.
Qed.

Lemma waiting_notices_app t1 t2 :
  waiting_notices (t1 ++ t2) = waiting_notices t1 + waiting_notices t2.
Proof.
  unfold waiting_notices. now rewrite filter_app, length_app.
Qed.

Lemma last_cons A (a d : A) l : last (a :: l) d = last l a.
Proof.
  revert a d. induction l as [|b l IH]; intros a d; [reflexivity|].
  change (last (a :: b :: l) d) with (last (b :: l) d).
  now rewrite !(IH b).
Qed.

Lemma seen_after_app seen t1 t2 :
  seen_after seen (t1 ++ t2) = seen_after (seen_after seen t1) t2.
Proof.
  unfold seen_after. rewrite observations_app, map_app.
  generalize (map Some (observations t1)) as l1.
  generalize (map Some (observations t2)) as l2.
  intros l2 l1. revert seen. induction l1 as [|a l1 IH]; intros seen.
  - reflexivity.
  - change ((a :: l1) ++ l2) with (a :: (l1 ++ l2)).
    now rewrite !last_cons, IH.
Qed.

Lemma quiescent_at_requests_app seen t1 t2 :
  quiescent_at_requests seen (t1 ++ t2)
  = quiescent_at_requests seen t1
    && quiescent_at_requests (seen_after seen t1) t2.
Proof.
  revert seen. induction t1 as [|e t1 IH]; intros seen; simpl; auto.
  destruct e as [| | | | | |rq rs| ]; try apply IH.
  destruct rq; try (rewrite IH; unfold seen_after; simpl;
                    now rewrite ?andb_assoc).
  destruct rs; try (rewrite IH; unfold seen_after; simpl;
                    now rewrite ?andb_assoc).
  rewrite IH. unfold seen_after.
  change (observations (Api (describe_environments ApplicationName0
            EnvironmentNames) (Environments l) :: t1))
    with (l :: observations t1).
  simpl map. now rewrite last_cons.
Qed.

(** ** Events a part of the script never produces *)

Lemma no_request_filter f t :
  Forall (no_request f) t -> filter f (requests t) = [].
Proof.
  induction 1 as [|e t He _ IH]; [reflexivity|].
  destruct e; simpl in *; auto. now rewrite He.
Qed.

Lemma no_request_In f t rq :
  Forall (no_request f) t -> In rq (requests t) -> f rq = false.
Proof.
  induction 1 as [|e t He _ IH]; simpl; [tauto|].
  destruct e; simpl in *; auto. intros [<-|Hin]; auto.
Qed.

(** Walks through a piece of the script, leaving one goal per event. *)
Ltac walk :=
  repeat
    match goal with
    | |- Forall _ (trace_of (bind _ _ _)) => apply bind_Forall; [|intros]
    | |- Forall _ (trace_of (emit _ _)) => apply emit_Forall
    | |- Forall _ (trace_of (print _ _)) => apply emit_Forall
    | |- Forall _ (trace_of (sleep _ _)) => apply emit_Forall
    | |- Forall _ (trace_of (call _ _ _ _)) => apply call_Forall; intros
    | |- Forall _ (trace_of (ret _ _)) => apply ret_Forall
    | |- Forall _ (trace_of (raise _ _)) => apply raise_Forall
    | |- Forall _ (trace_of (still_polling _)) => constructor
    | |- Forall _ (trace_of (get_files_list _)) => constructor
    | |- Forall _ (trace_of (files_list_append _ _)) => constructor
    | |- Forall _ (trace_of ((if ?b then _ else _) _)) => destruct b
    | |- Forall _ (trace_of (match ?x with _ => _ end _)) => destruct x
    | |- Forall _ (trace_of (match ?x with _ => _ end)) => destruct x
    end.

Section Stages.

Variable w : World.
Variable P : event -> Prop.

Hypothesis P_print :
  forall m, match m with MsgWaiting _ => False | _ => True end ->
            P (Print m).
Hypothesis P_rmtree : forall p, P (Rmtree p).
Hypothesis P_chdir : P Chdir.
Hypothesis P_popen : forall a, P (Popen a).
Hypothesis P_glob : forall p, P (GlobDir p).
Hypothesis P_zip : forall n l, P (ZipWritten n l).

(** The build and the packaging send no request and do not pause. *)
Lemma build_application_Forall g :
  Forall P (trace_of (build_application w g)).
Proof.
  unfold build_application, print_result. walk; try (apply P_print; exact I); auto.
Qed.

Lemma package_application_Forall g :
  Forall P (trace_of (package_application w g)).
Proof.
  unfold package_application, with_ZipFile, subscript0. walk; try (apply P_print; exact I); auto.
Qed.

Hypothesis P_sleep : forall s, P (Sleep s).
Hypothesis P_other :
  forall rq rs,
    is_create_application rq = false ->
    is_environment_request rq = false ->
    match rq with describe_environments _ _ => False | _ => True end ->
    P (Api rq rs).

(** Upload and registration send requests, none about the application
    or the environment. *)
Lemma upload_application_version_Forall name g :
  Forall P (trace_of (upload_application_version w name g)).
Proof.
  unfold upload_application_version. walk; try (apply P_print; exact I); auto.
Qed.

Lemma register_version_Forall name bucket g :
  Forall P (trace_of (register_version w name bucket g)).
Proof.
  unfold register_version, print_response. walk; try (apply P_print; exact I); auto.
Qed.

End Stages.

Section Waiting.

Variable w : World.
Variable P : event -> Prop.

Hypothesis P_print : forall m, P (Print m).
Hypothesis P_sleep : forall s, P (Sleep s).
Hypothesis P_poll : forall a l rs, P (Api (describe_environments a l) rs).

(** The wait loop prints, pauses and polls, and does nothing else. *)
Lemma wait_loop_Forall fuel k cfg printed g :
  Forall P (trace_of (wait_loop w fuel k cfg printed g)).
Proof.
  revert k cfg printed g.
  induction fuel as [|fuel IH]; intros k cfg printed g; simpl;
    destruct (in_progress cfg); try constructor.
  unfold poll. walk; auto.
Qed.

Lemma await_environment_Forall fuel g :
  Forall P (trace_of (await_environment w fuel g)).
Proof.
  unfold await_environment, poll. walk; auto. apply wait_loop_Forall.
Qed.

End Waiting.

Lemma ensure_application_globals w g :
  globals_of (ensure_application w g) = g.
Proof.
  unfold ensure_application, call, print_response, print.
  destruct (eb_applications w) as [[|a l]|e]; try reflexivity.
  destruct (eb_create_application w); reflexivity.
Qed.

(** What [ensure_application] sends, by the answer to its query. *)
Lemma ensure_application_requests w g :
  requests (trace_of (ensure_application w g))
  = describe_applications [application_name (arguments w)]
    :: match eb_applications w with
       | Returns [] =>
           [create_application (application_name (arguments w))
              (application_name (arguments w) +:+ " Application")]
       | _ => []
       end.
Proof.
  unfold ensure_application, call, print_response, print.
  destruct (eb_applications w) as [[|a l]|e]; try reflexivity.
  destruct (eb_create_application w); reflexivity.
Qed.

(** Once the application is ensured, no later step creates one. *)
Lemma main_after_ensure w fuel g :
  exists rest,
    trace_of (main w fuel g) = trace_of (ensure_application w g) ++ rest
    /\ Forall (no_request is_create_application) rest.
Proof.
  unfold main, register_new_version.
  rewrite bind_trace, bind_trace, <- app_assoc.
  eexists; split; [reflexivity|].
  apply Forall_app; split.
  - destruct (outcome_of (ensure_application w g)); try constructor.
    walk; try exact I.
    + apply build_application_Forall; intros; exact I.
    + apply package_application_Forall; intros; exact I.
    + apply upload_application_version_Forall; intros; simpl; auto.
    + apply register_version_Forall; intros; simpl; auto.
  - match goal with
    | |- Forall _ (match ?o with _ => _ end) => destruct o
    end; try constructor.
    unfold create_or_update, print_response. walk; try exact I;
      try reflexivity.
    apply await_environment_Forall; intros; simpl; auto.
Qed.

Lemma no_request_requests f t :
  Forall (no_request f) t -> Forall (fun rq => f rq = false) (requests t).
Proof.
  induction 1 as [|e t He _ IH]; [constructor|].
  destruct e; simpl in *; auto.
Qed.

Lemma Forall_false_filter A (f : A -> bool) l :
  Forall (fun x => f x = false) l -> filter f l = [].
Proof.
  induction 1 as [|x l Hx _ IH]; simpl; [reflexivity|]. now rewrite Hx.
Qed.

(** ** C2: the application is created exactly when it is absent *)

(** C2. In every run the create-application request is sent exactly once,
    with the description [<name> Application], when the
    describe-applications query for the application name returns an empty
    list, and is not sent when the list is not empty; no create-application
    request follows the create-application-version request. *)
Theorem create_application_iff_absent (w : World) (fuel : nat) (g : globals) :
  let name := application_name (arguments w) in
  let sent := requests (trace_of (main w fuel g)) in
  hd_error sent = Some (describe_applications [name])
  /\ (eb_applications w = Returns [] ->
      filter is_create_application sent
      = [create_application name (name +:+ " Application")])
  /\ (forall a l, eb_applications w = Returns (a :: l) ->
      filter is_create_application sent = [])
  /\ (forall before rq after,
      sent = before ++ rq :: after ->
      is_create_application_version rq = true ->
      filter is_create_application after = []).
Proof.
  intros name sent.
  destruct (main_after_ensure w fuel g) as (rest & Hmain & Hrest).
  assert (Hsent : sent
            = requests (trace_of (ensure_application w g)) ++ requests rest).
  { unfold sent. now rewrite Hmain, requests_app. }
  pose proof (ensure_application_requests w g) as Hens. fold name in Hens.
  pose proof (no_request_requests Hrest) as Hnone.
  split; [|split; [|split]].
  - rewrite Hsent, Hens. reflexivity.
  - intros Happs. rewrite Hsent, Hens, Happs, filter_app.
    rewrite (Forall_false_filter _ Hnone). reflexivity.
  - intros a l Happs. rewrite Hsent, Hens, Happs, filter_app.
    rewrite (Forall_false_filter _ Hnone). reflexivity.
  - intros before rq after Hsplit Hrq. rewrite Hsent in Hsplit.
    apply Forall_false_filter.
    apply app_eq_app in Hsplit. destruct Hsplit as (l & [[H1 H2]|[H1 H2]]).
    + destruct l as [|x l].
      * simpl in H2. rewrite <- H2 in Hnone. now inversion Hnone.
      * simpl in H2. injection H2 as <- _. exfalso.
        assert (Hin : In rq (requests (trace_of (ensure_application w g)))).
        { rewrite H1. apply in_or_app. right. now left. }
        rewrite Hens in Hin.
        destruct Hin as [<-|Hin]; [discriminate|].
        destruct (eb_applications w) as [[|? ?]|?]; simpl in Hin;
          try tauto.
        destruct Hin as [<-|[]]. discriminate.
    + rewrite H2 in Hnone. apply Forall_app in Hnone.
      destruct Hnone as [_ Hnone]. now inversion Hnone.
Qed.

Lemma create_application_iff_absent_witness :
  filter is_create_application
    (requests (trace_of (main Sample.fresh 3 initial_globals)))
  = [create_application "shop" "shop Application"]
  /\ filter is_create_application
       (requests
          (trace_of (main (Sample.busy_then 1 "Ready") 3 initial_globals)))
     = []
  /\ filter is_create_application
       [describe_environments "shop" ["shop-prod"];
        create_environment "shop" "shop-prod" "shop-prod Environment"
          "shop-prod" "shop-1.0-20240309-120507"] = [].
Proof.
  split; [|split].
  - exact (proj1 (proj2
      (create_application_iff_absent Sample.fresh 3 initial_globals))
      eq_refl).
  - exact (proj1 (proj2 (proj2
      (create_application_iff_absent (Sample.busy_then 1 "Ready") 3
         initial_globals)))
      {| ApplicationName := "shop" |} [] eq_refl).
  - exact (proj2 (proj2 (proj2
      (create_application_iff_absent Sample.fresh 3 initial_globals)))
      [describe_applications ["shop"];
       create_application "shop" "shop Application"; get_caller_identity;
       buckets_all;
       create_bucket "private" "elasticbeanstalk-eu-west-1-123456789012"
         "eu-west-1";
       put_object "elasticbeanstalk-eu-west-1-123456789012"
         "shop-1.0-20240309-120507.zip" "shop-1.0-20240309-120507.zip"]
      (create_application_version "shop" "shop-1.0-20240309-120507"
         "elasticbeanstalk-eu-west-1-123456789012"
         "shop-1.0-20240309-120507.zip" false true)
      [describe_environments "shop" ["shop-prod"];
       create_environment "shop" "shop-prod" "shop-prod Environment"
         "shop-prod" "shop-1.0-20240309-120507"]
      eq_refl eq_refl).
Defined.

(** ** The three phases of a run *)

Lemma prelude_event_quiet t :
  Forall prelude_event t ->
  observations t = []
  /\ filter is_environment_request (requests t) = []
  /\ waiting_notices t = 0
  /\ forall seen, quiescent_at_requests seen t = true.
Proof.
  unfold waiting_notices.
  induction 1 as [|e t He _ (IH1 & IH2 & IH3 & IH4)]; [now repeat split|].
  destruct e as [m| | | | | |rq rs| ]; simpl in *; auto.
  - destruct m; simpl; auto. contradiction.
  - destruct rq; try contradiction; try (cbv in He; discriminate);
      simpl in *; repeat split; auto.
Qed.

Lemma register_new_version_prelude w g :
  Forall prelude_event (trace_of (register_new_version w g)).
Proof.
  unfold register_new_version, ensure_application, print_response.
  walk; try exact I; try reflexivity.
  - apply build_application_Forall; intros; try exact I.
    destruct m; simpl; auto.
  - apply package_application_Forall; intros; try exact I.
    destruct m; simpl; auto.
  - apply upload_application_version_Forall; intros; try exact I.
    + destruct m; simpl; auto.
    + destruct rq; simpl in *; try exact I; try assumption; contradiction.
  - apply register_version_Forall; intros; try exact I.
    + destruct m; simpl; auto.
    + destruct rq; simpl in *; try exact I; try assumption; contradiction.
Qed.

(** A run is the prelude followed, when the prelude ends well, by the wait
    and the decision. *)
Lemma main_phases w fuel g :
  let r := register_new_version w g in
  trace_of (main w fuel g)
  = trace_of r
    ++ match outcome_of r with
       | Ok label =>
           let a := await_environment w fuel (globals_of r) in
           trace_of a
           ++ match outcome_of a with
              | Ok cfg => trace_of (create_or_update w label cfg (globals_of a))
              | _ => []
              end
       | _ => []
       end.
Proof.
  unfold main. rewrite bind_trace.
  destruct (outcome_of (register_new_version w g)); simpl; try reflexivity.
  now rewrite bind_trace.
Qed.

Lemma create_or_update_trace w label cfg g :
  exists rs tl,
    trace_of (create_or_update w label cfg g)
    = Print (if absent_or_terminated cfg
             then MsgCreateEnvironment (full_environment_name w)
                    (application_name (arguments w))
             else MsgUpdateEnvironment (full_environment_name w)
                    (application_name (arguments w)))
      :: Api (decision w label cfg) rs :: tl
    /\ (tl = [] \/ exists text, tl = [Print (MsgResponse text)]).
Proof.
  unfold create_or_update, decision, print_response, call, print.
  destruct (absent_or_terminated cfg).
  - destruct (eb_create_environment w);
      (do 2 eexists; split; [reflexivity|]); eauto.
  - destruct (eb_update_environment w);
      (do 2 eexists; split; [reflexivity|]); eauto.
Qed.

Lemma build_application_globals w g :
  globals_of (build_application w g) = g.
Proof.
  unfold build_application, print_result, print, emit, bind, globals_of.
  simpl. destruct (gradlew_build w) as [p|e]; simpl; [|reflexivity].
  destruct (String.eqb (stdout p) ""), (String.eqb (stderr p) "");
    reflexivity.
Qed.

(** The label the later steps use is the one packaging returned, in the
    module state the run started with. *)
Lemma register_new_version_label w g label :
  outcome_of (register_new_version w g) = Ok label ->
  outcome_of (package_application w g) = Ok label.
Proof.
  unfold register_new_version. rewrite bind_outcome.
  destruct (outcome_of (ensure_application w g)); try discriminate.
  rewrite ensure_application_globals, bind_outcome.
  change (outcome_of (print MsgBuild g)) with (Ok (A:=unit) tt).
  change (globals_of (print MsgBuild g)) with g.
  cbv iota. rewrite bind_outcome.
  destruct (outcome_of (build_application w g)); try discriminate.
  rewrite build_application_globals, bind_outcome.
  change (outcome_of (print MsgPackage g)) with (Ok (A:=unit) tt).
  change (globals_of (print MsgPackage g)) with g.
  cbv iota. rewrite bind_outcome.
  destruct (outcome_of (package_application w g)) as [pkg|e|];
    try discriminate.
  rewrite bind_outcome.
  match goal with
  | |- context [outcome_of (print MsgUpload ?g')] =>
      change (outcome_of (print MsgUpload g')) with (Ok (A:=unit) tt)
  end.
  cbv iota. rewrite bind_outcome.
  match goal with
  | |- context [outcome_of (upload_application_version ?a ?b ?c)] =>
      destruct (outcome_of (upload_application_version a b c))
  end; try discriminate.
  rewrite bind_outcome.
  match goal with
  | |- context [outcome_of (register_version ?a ?b ?c ?d)] =>
      destruct (outcome_of (register_version a b c d))
  end; try discriminate.
  simpl. auto.
Qed.

(** ** The wait loop *)

Lemma no_environment_request_quiescent t :
  Forall (no_request is_environment_request) t ->
  forall seen, quiescent_at_requests seen t = true.
Proof.
  induction 1 as [|e t He _ IH]; intros seen; [reflexivity|].
  destruct e as [| | | | | |rq rs| ]; simpl in *; auto.
  rewrite He. destruct rq; simpl; auto. destruct rs; simpl; auto.
Qed.

Lemma await_environment_no_request w fuel g :
  Forall (no_request is_environment_request)
         (trace_of (await_environment w fuel g)).
Proof.
  apply await_environment_Forall; intros; simpl; auto.
Qed.

(** One turn of the loop. *)
Lemma wait_loop_step w fuel k cfg printed g :
  in_progress cfg = true ->
  wait_loop w (S fuel) k cfg printed g
  = match eb_environments w (S k) with
    | Returns cfg1 =>
        match wait_loop w fuel (S k) cfg1 true g with
        | (t, g', o) =>
            (turn_prefix w printed
             ++ Api (poll_request w) (Environments cfg1) :: t, g', o)
        end
    | Raises e =>
        (turn_prefix w printed ++ [Api (poll_request w) (Failure e)], g,
         Raised e)
    end.
Proof.
  intros Hcfg. simpl. rewrite Hcfg.
  unfold bind, poll, call, print, sleep, emit, ret, raise, turn_prefix,
    poll_request.
  destruct printed; simpl;
    destruct (eb_environments w (S k)) as [cfg1|e]; simpl;
    try reflexivity;
    destruct (wait_loop w fuel (S k) cfg1 true g) as [[t g'] o];
    reflexivity.
Qed.

Lemma wait_loop_done w fuel k cfg printed g :
  in_progress cfg = false ->
  wait_loop w fuel k cfg printed g = ([], g, Ok cfg).
Proof.
  intros Hcfg. destruct fuel; simpl; rewrite Hcfg; reflexivity.
Qed.

Lemma wait_loop_out_of_fuel w k cfg printed g :
  in_progress cfg = true ->
  wait_loop w 0 k cfg printed g = ([], g, Polling).
Proof.
  intros Hcfg. simpl. rewrite Hcfg. reflexivity.
Qed.

Lemma await_environment_eq w fuel g :
  await_environment w fuel g
  = match eb_environments w 0 with
    | Returns cfg0 =>
        match wait_loop w fuel 0 cfg0 false g with
        | (t, g', o) => (Api (poll_request w) (Environments cfg0) :: t, g', o)
        end
    | Raises e => ([Api (poll_request w) (Failure e)], g, Raised e)
    end.
Proof.
  unfold await_environment, bind, poll, call, emit, ret, raise, poll_request.
  destruct (eb_environments w 0) as [cfg0|e]; simpl; [|reflexivity].
  destruct (wait_loop w fuel 0 cfg0 false g) as [[t g'] o]; reflexivity.
Qed.

Lemma seen_after_turn_prefix w printed seen :
  seen_after seen (turn_prefix w printed) = seen.
Proof. destruct printed; reflexivity. Qed.

Lemma seen_after_poll w seen l t :
  seen_after seen (Api (poll_request w) (Environments l) :: t)
  = seen_after (Some l) t.
Proof.
  unfold seen_after, poll_request.
  change (observations (Api (describe_environments
            (application_name (arguments w)) [full_environment_name w])
            (Environments l) :: t))
    with (l :: observations t).
  cbn [map]. apply last_cons.
Qed.

(** The loop is left only on a description that is not in progress, and
    that description is the last one seen. *)
Lemma wait_loop_exit_quiescent w fuel :
  forall k cfg printed g final,
    outcome_of (wait_loop w fuel k cfg printed g) = Ok final ->
    in_progress final = false
    /\ seen_after (Some cfg) (trace_of (wait_loop w fuel k cfg printed g))
       = Some final.
Proof.
  induction fuel as [|fuel IH]; intros k cfg printed g final;
    destruct (in_progress cfg) eqn:Hcfg.
  - rewrite wait_loop_out_of_fuel by assumption. discriminate.
  - rewrite wait_loop_done by assumption. intros [= <-]. now split.
  - rewrite wait_loop_step by assumption.
    destruct (eb_environments w (S k)) as [cfg1|e]; [|discriminate].
    specialize (IH (S k) cfg1 true g final).
    destruct (wait_loop w fuel (S k) cfg1 true g) as [[t g'] o].
    unfold outcome_of, trace_of in *. simpl in *.
    intros Hout. destruct (IH Hout) as [Hq Hseen]. split; [exact Hq|].
    now rewrite seen_after_app, seen_after_turn_prefix, seen_after_poll.
  - rewrite wait_loop_done by assumption. intros [= <-]. now split.
Qed.

Lemma await_environment_exit_quiescent w fuel g final seen :
  outcome_of (await_environment w fuel g) = Ok final ->
  in_progress final = false
  /\ seen_after seen (trace_of (await_environment w fuel g)) = Some final.
Proof.
  rewrite await_environment_eq.
  destruct (eb_environments w 0) as [cfg0|e]; [|discriminate].
  pose proof (@wait_loop_exit_quiescent w fuel 0 cfg0 false g final) as H.
  destruct (wait_loop w fuel 0 cfg0 false g) as [[t g'] o].
  unfold outcome_of, trace_of in *. simpl in *.
  intros Hout. destruct (H Hout) as [Hq Hseen]. split; [exact Hq|].
  now rewrite seen_after_poll.
Qed.

(** The three descriptions on which the loop can be left. *)
Lemma quiescent_cases cfg :
  in_progress cfg = false ->
  (absent_or_terminated cfg = true
   /\ (cfg = [] \/ exists e l, cfg = e :: l /\ Status e = "Terminated"))
  \/ (absent_or_terminated cfg = false
      /\ exists e l, cfg = e :: l /\ Status e = "Ready").
Proof.
  destruct cfg as [|e l]; simpl; [auto|].
  destruct (String.eqb_spec (Status e) "Terminated") as [Ht|Ht].
  - intros _. left. split; [reflexivity|]. right. eauto.
  - destruct (String.eqb_spec (Status e) "Ready") as [Hr|Hr];
      [|discriminate].
    intros _. right. split; [reflexivity|]. eauto.
Qed.

Lemma create_or_update_sent w label cfg g :
  let t := trace_of (create_or_update w label cfg g) in
  filter is_environment_request (requests t) = [decision w label cfg]
  /\ observations t = []
  /\ waiting_notices t = 0
  /\ sleeps t = [].
Proof.
  destruct (create_or_update_trace w label cfg g) as (rs & tl & Ht & Htl).
  cbv zeta. rewrite Ht.
  unfold waiting_notices, decision.
  destruct Htl as [->|[text ->]]; destruct (absent_or_terminated cfg);
    repeat split; reflexivity.
Qed.

(** ** C1: create or update, never both *)

(** C1. The decision is taken only when the prelude has returned a version
    label and the wait loop has been left on a description [cfg]; that label
    is the one packaging returned and [cfg] is the last description seen.
    Then exactly one request changes the environment: create-environment,
    with the full environment name as CNAME prefix, when the environment is
    absent or ['Terminated'], and update-environment when it is ['Ready'];
    both carry the label.  In every other run no such request is sent. *)
Theorem create_xor_update (w : World) (fuel : nat) (g : globals) :
  let app := application_name (arguments w) in
  let env := app +:+ "-" +:+ environment_name (arguments w) in
  let r := register_new_version w g in
  let t := trace_of (main w fuel g) in
  let sent := filter is_environment_request (requests t) in
  (forall label cfg,
     outcome_of r = Ok label ->
     outcome_of (await_environment w fuel (globals_of r)) = Ok cfg ->
     outcome_of (package_application w g) = Ok label
     /\ last_observed t = Some cfg
     /\ (((cfg = [] \/ exists e l, cfg = e :: l /\ Status e = "Terminated")
          /\ sent = [create_environment app env (env +:+ " Environment")
                       env label])
         \/ ((exists e l, cfg = e :: l /\ Status e = "Ready")
             /\ sent = [update_environment app env label])))
  /\ ((forall label cfg,
         outcome_of r = Ok label ->
         outcome_of (await_environment w fuel (globals_of r)) <> Ok cfg) ->
      sent = []).
Proof.
  intros app env r t sent.
  pose proof (main_phases w fuel g) as Hmain. cbv zeta in Hmain.
  fold r t in Hmain.
  destruct (prelude_event_quiet (register_new_version_prelude w g))
    as (Hobs & Hreq & _ & _). fold r in Hobs, Hreq.
  split.
  - intros label cfg Hr Ha.
    rewrite Hr, Ha in Hmain.
    destruct (await_environment_exit_quiescent w fuel (globals_of r) None Ha)
      as [Hq Hseen].
    destruct (create_or_update_sent w label cfg
                (globals_of (await_environment w fuel (globals_of r))))
      as (Hsent & Hobs' & _ & _).
    split; [now apply register_new_version_label|].
    split.
    + unfold last_observed. rewrite Hmain, seen_after_app.
      unfold seen_after at 2. rewrite Hobs. cbn [map last].
      rewrite seen_after_app, Hseen.
      unfold seen_after. now rewrite Hobs'.
    + assert (Hs : sent = [decision w label cfg]).
      { unfold sent. rewrite Hmain, !requests_app, !filter_app, Hreq, Hsent.
        rewrite (no_request_filter (await_environment_no_request _ _ _)).
        reflexivity. }
      unfold decision in Hs.
      destruct (quiescent_cases _ Hq) as [[Hb Hc]|[Hb Hc]];
        rewrite Hb in Hs; [left|right]; split; auto.
  - intros Hnot. unfold sent. rewrite Hmain, requests_app, filter_app, Hreq.
    destruct (outcome_of r) as [label|e|] eqn:Hr; try reflexivity.
    rewrite requests_app, filter_app.
    rewrite (no_request_filter (await_environment_no_request _ _ _)).
    destruct (outcome_of (await_environment w fuel (globals_of r)))
      as [cfg|e|] eqn:Ha; try reflexivity.
    exfalso. exact (Hnot label cfg eq_refl eq_refl).
Qed.

Lemma create_xor_update_witness :
  filter is_environment_request
    (requests (trace_of (main Sample.fresh 2 initial_globals)))
  = [create_environment "shop" "shop-prod" "shop-prod Environment"
       "shop-prod" "shop-1.0-20240309-120507"]
  /\ filter is_environment_request
       (requests
          (trace_of (main (Sample.busy_then 1 "Ready") 2 initial_globals)))
     = [update_environment "shop" "shop-prod" "shop-1.0-20240309-120507"]
  /\ filter is_environment_request
       (requests (trace_of (main Sample.no_artifact 2 initial_globals)))
     = [].
Proof.
  split; [|split].
  - destruct (proj1 (create_xor_update Sample.fresh 2 initial_globals)
                "shop-1.0-20240309-120507" [] eq_refl eq_refl)
      as (_ & _ & [[_ H]|[(e & l & Hc & _) _]]);
      [exact H|discriminate Hc].
  - destruct (proj1 (create_xor_update (Sample.busy_then 1 "Ready") 2
                       initial_globals)
                "shop-1.0-20240309-120507" [Sample.env "Ready"]
                eq_refl eq_refl)
      as (_ & _ & [[[Hc|(e & l & Hc & Hs)] _]|[_ H]]);
      [discriminate Hc| |exact H].
    injection Hc as <- _. discriminate Hs.
  - apply (proj2 (create_xor_update Sample.no_artifact 2 initial_globals)).
    intros label cfg H. vm_compute in H. discriminate H.
Defined.

(** ** The schedule of the wait *)

Lemma sleeps_turn w printed rs t :
  sleeps (turn_prefix w printed ++ Api (poll_request w) rs :: t)
  = 30 :: sleeps t.
Proof. destruct printed; reflexivity. Qed.

Lemma observations_turn w printed cfg t :
  observations
    (turn_prefix w printed ++ Api (poll_request w) (Environments cfg) :: t)
  = cfg :: observations t.
Proof. destruct printed; reflexivity. Qed.

Lemma schedule_turn w printed rs t :
  filter (fun e => negb (is_print e))
         (turn_prefix w printed ++ Api (poll_request w) rs :: t)
  = Sleep 30 :: Api (poll_request w) rs
      :: filter (fun e => negb (is_print e)) t.
Proof. destruct printed; reflexivity. Qed.

(** Prints apart, the loop only pauses 30 seconds and polls, in turn. *)
Lemma wait_loop_schedule w fuel :
  forall k cfg printed g,
  exists replies,
    filter (fun e => negb (is_print e))
           (trace_of (wait_loop w fuel k cfg printed g))
    = repolls w replies.
Proof.
  induction fuel as [|fuel IH]; intros k cfg printed g;
    destruct (in_progress cfg) eqn:Hcfg.
  - rewrite wait_loop_out_of_fuel by assumption. now exists [].
  - rewrite wait_loop_done by assumption. now exists [].
  - rewrite wait_loop_step by assumption.
    destruct (eb_environments w (S k)) as [cfg1|e].
    + destruct (IH (S k) cfg1 true g) as [replies Hr].
      destruct (wait_loop w fuel (S k) cfg1 true g) as [[t g'] o].
      exists (Environments cfg1 :: replies).
      unfold trace_of in *. simpl fst in *.
      now rewrite schedule_turn, Hr.
    + exists [Failure e]. unfold trace_of. simpl fst.
      now rewrite schedule_turn.
  - rewrite wait_loop_done by assumption. now exists [].
Qed.

(** [n] more polls in progress, then a quiescent one: the loop ends on it
    after [S n] pauses. *)
Lemma wait_loop_runs w final :
  forall n k fuel cfg printed g,
    in_progress cfg = true ->
    (forall i, i < n ->
       exists c, eb_environments w (S k + i) = Returns c
                 /\ in_progress c = true) ->
    eb_environments w (S k + n) = Returns final ->
    in_progress final = false ->
    S n <= fuel ->
    let r := wait_loop w fuel k cfg printed g in
    outcome_of r = Ok final
    /\ sleeps (trace_of r) = repeat 30 (S n)
    /\ length (observations (trace_of r)) = S n.
Proof.
  induction n as [|n IH]; intros k fuel cfg printed g Hcfg Hbusy Hfinal Hq Hfuel;
    (destruct fuel as [|fuel]; [lia|]); cbv zeta;
    rewrite wait_loop_step by assumption.
  - rewrite Nat.add_0_r in Hfinal. rewrite Hfinal.
    rewrite wait_loop_done by assumption.
    unfold outcome_of, trace_of. simpl fst. simpl snd.
    now rewrite sleeps_turn, observations_turn.
  - destruct (Hbusy 0) as (c & Hc & Hcb); [lia|].
    rewrite Nat.add_0_r in Hc. rewrite Hc.
    specialize (IH (S k) fuel c true g Hcb).
    destruct (wait_loop w fuel (S k) c true g) as [[t g'] o].
    unfold outcome_of, trace_of in *. simpl fst in *. simpl snd in *.
    rewrite sleeps_turn, observations_turn.
    assert (Hbusy' : forall i, i < n ->
              exists c', eb_environments w (S (S k) + i) = Returns c'
                         /\ in_progress c' = true).
    { intros i Hi. destruct (Hbusy (S i)) as (c' & Hc' & Hcb'); [lia|].
      exists c'. split; [|exact Hcb'].
      now replace (S (S k) + i) with (S k + S i) by lia. }
    assert (Hfinal' : eb_environments w (S (S k) + n) = Returns final).
    { now replace (S (S k) + n) with (S k + S n) by lia. }
    destruct (IH Hbusy' Hfinal' Hq ltac:(lia)) as (Ho & Hs & Hl).
    split; [exact Ho|]. split; simpl; now f_equal.
Qed.

(** As long as the polls are in progress the loop goes on. *)
Lemma wait_loop_goes_on w :
  forall fuel k cfg printed g,
    in_progress cfg = true ->
    (forall i, i < fuel ->
       exists c, eb_environments w (S k + i) = Returns c
                 /\ in_progress c = true) ->
    let r := wait_loop w fuel k cfg printed g in
    outcome_of r = Polling /\ sleeps (trace_of r) = repeat 30 fuel.
Proof.
  induction fuel as [|fuel IH]; intros k cfg printed g Hcfg Hbusy; cbv zeta.
  - rewrite wait_loop_out_of_fuel by assumption. now split.
  - rewrite wait_loop_step by assumption.
    destruct (Hbusy 0) as (c & Hc & Hcb); [lia|].
    rewrite Nat.add_0_r in Hc. rewrite Hc.
    specialize (IH (S k) c true g Hcb).
    destruct (wait_loop w fuel (S k) c true g) as [[t g'] o].
    unfold outcome_of, trace_of in *. simpl fst in *. simpl snd in *.
    rewrite sleeps_turn.
    assert (Hbusy' : forall i, i < fuel ->
              exists c', eb_environments w (S (S k) + i) = Returns c'
                         /\ in_progress c' = true).
    { intros i Hi. destruct (Hbusy (S i)) as (c' & Hc' & Hcb'); [lia|].
      exists c'. split; [|exact Hcb'].
      now replace (S (S k) + i) with (S k + S i) by lia. }
    destruct (IH Hbusy') as (Ho & Hs).
    split; [exact Ho|]. simpl. now f_equal.
Qed.

(** What the monitor says at a request that changes the environment. *)
Lemma quiescent_at_requests_sound seen before rq rs after :
  quiescent_at_requests seen (before ++ Api rq rs :: after) = true ->
  is_environment_request rq = true ->
  exists cfg, seen_after seen before = Some cfg /\ in_progress cfg = false.
Proof.
  rewrite quiescent_at_requests_app. intros H Hrq.
  apply andb_prop in H. destruct H as [_ H].
  destruct rq; try discriminate; simpl in H;
    destruct (seen_after seen before) as [cfg|]; try discriminate;
    exists cfg; split; auto;
    apply andb_prop in H; destruct H as [H _];
    now apply negb_true_iff in H.
Qed.

Lemma in_progress_false cfg :
  in_progress cfg = false ->
  cfg = []
  \/ exists e l, cfg = e :: l
                 /\ (Status e = "Ready" \/ Status e = "Terminated").
Proof.
  intros H. destruct (quiescent_cases _ H) as [[_ [->|(e & l & -> & Hs)]]
                                              |[_ (e & l & -> & Hs)]];
    eauto 6.
Qed.

(** The monitor accepts every run. *)
Lemma main_quiescent_at_requests w fuel g :
  quiescent_at_requests None (trace_of (main w fuel g)) = true.
Proof.
  rewrite main_phases. cbv zeta.
  destruct (prelude_event_quiet (register_new_version_prelude w g))
    as (_ & _ & _ & Hpre).
  rewrite quiescent_at_requests_app, Hpre. simpl andb.
  destruct (outcome_of (register_new_version w g)) as [label|e|];
    try reflexivity.
  rewrite quiescent_at_requests_app.
  rewrite (no_environment_request_quiescent
             (await_environment_no_request _ _ _)).
  simpl andb.
  match goal with
  | |- context [outcome_of (await_environment w fuel ?g1)] =>
      destruct (outcome_of (await_environment w fuel g1)) as [cfg|e|] eqn:Ha;
      try reflexivity;
      destruct (await_environment_exit_quiescent w fuel g1
                  (seen_after None (trace_of (register_new_version w g))) Ha)
        as [Hq Hseen];
      rewrite Hseen;
      destruct (create_or_update_trace w label cfg
                  (globals_of (await_environment w fuel g1)))
        as (rs & tl & Ht & Htl);
      rewrite Ht
  end.
  unfold decision.
  destruct Htl as [->|[text ->]]; destruct (absent_or_terminated cfg);
    simpl; now rewrite Hq.
Qed.

(** ** C3: no request while an operation is in progress *)

(** C3. In every run, whatever the polls return, a create-environment or
    update-environment request is sent only when the last description seen
    is a quiescent one: the environment absent, ['Ready'] or
    ['Terminated'].  Prints apart, the wait is a poll followed by turns of
    a 30 second pause and a poll.  It has no cap: it ends on the first
    quiescent poll, however late that comes, and while every poll is in
    progress it is still polling after any number of turns. *)
Theorem no_request_while_in_progress (w : World) (fuel : nat) (g : globals) :
  (forall before rq rs after,
     trace_of (main w fuel g) = before ++ Api rq rs :: after ->
     is_environment_request rq = true ->
     exists cfg,
       last_observed before = Some cfg
       /\ in_progress cfg = false
       /\ (cfg = []
           \/ exists e l, cfg = e :: l
                /\ (Status e = "Ready" \/ Status e = "Terminated")))
  /\ (exists first replies,
        filter (fun e => negb (is_print e))
               (trace_of (await_environment w fuel g))
        = Api (poll_request w) first :: repolls w replies)
  /\ (forall n final,
        (forall k, k < n ->
           exists cfg, eb_environments w k = Returns cfg
                       /\ in_progress cfg = true) ->
        eb_environments w n = Returns final ->
        in_progress final = false ->
        n <= fuel ->
        outcome_of (await_environment w fuel g) = Ok final
        /\ sleeps (trace_of (await_environment w fuel g)) = repeat 30 n
        /\ length (observations (trace_of (await_environment w fuel g)))
           = S n)
  /\ ((forall k, k <= fuel ->
         exists cfg, eb_environments w k = Returns cfg
                     /\ in_progress cfg = true) ->
      outcome_of (await_environment w fuel g) = Polling
      /\ sleeps (trace_of (await_environment w fuel g)) = repeat 30 fuel).
Proof.
  split; [|split; [|split]].
  - intros before rq rs after Ht Hrq.
    pose proof (main_quiescent_at_requests w fuel g) as Hmon.
    rewrite Ht in Hmon.
    destruct (quiescent_at_requests_sound _ _ _ _ _ Hmon Hrq)
      as (cfg & Hseen & Hq).
    exists cfg. split; [exact Hseen|]. split; [exact Hq|].
    now apply in_progress_false.
  - rewrite await_environment_eq.
    destruct (eb_environments w 0) as [cfg0|e].
    + destruct (wait_loop_schedule w fuel 0 cfg0 false g) as [replies Hr].
      destruct (wait_loop w fuel 0 cfg0 false g) as [[t g'] o].
      exists (Environments cfg0), replies.
      unfold trace_of in *. simpl in *. now rewrite Hr.
    + now exists (Failure e), [].
  - intros n final Hbusy Hfinal Hq Hfuel.
    rewrite await_environment_eq.
    destruct n as [|n].
    + rewrite Hfinal, wait_loop_done by assumption. now repeat split.
    + destruct (Hbusy 0) as (cfg0 & Hc0 & Hb0); [lia|]. rewrite Hc0.
      assert (Hbusy' : forall i, i < n ->
                exists c, eb_environments w (1 + i) = Returns c
                          /\ in_progress c = true).
      { intros i Hi. apply Hbusy. lia. }
      destruct (@wait_loop_runs w final n 0 fuel cfg0 false g Hb0 Hbusy'
                  Hfinal Hq Hfuel) as (Ho & Hs & Hl).
      destruct (wait_loop w fuel 0 cfg0 false g) as [[t g'] o].
      unfold outcome_of, trace_of in *. simpl fst in *. simpl snd in *.
      split; [exact Ho|]. split; [exact Hs|].
      unfold poll_request. simpl. now f_equal.
  - intros Hbusy. rewrite await_environment_eq.
    destruct (Hbusy 0) as (cfg0 & Hc0 & Hb0); [lia|]. rewrite Hc0.
    assert (Hbusy' : forall i, i < fuel ->
              exists c, eb_environments w (1 + i) = Returns c
                        /\ in_progress c = true).
    { intros i Hi. apply Hbusy. lia. }
    destruct (@wait_loop_goes_on w fuel 0 cfg0 false g Hb0 Hbusy')
      as (Ho & Hs).
    destruct (wait_loop w fuel 0 cfg0 false g) as [[t g'] o].
    unfold outcome_of, trace_of in *. simpl fst in *. simpl snd in *.
    now split.
Qed.

Lemma no_request_while_in_progress_witness :
  let w := Sample.busy_then 2 "Ready" in
  let t := trace_of (main w 5 initial_globals) in
  (exists cfg,
     last_observed (firstn 26 t) = Some cfg
     /\ in_progress cfg = false
     /\ (cfg = []
         \/ exists e l, cfg = e :: l
              /\ (Status e = "Ready" \/ Status e = "Terminated")))
  /\ (outcome_of (await_environment w 5 initial_globals)
      = Ok [Sample.env "Ready"]
      /\ sleeps (trace_of (await_environment w 5 initial_globals))
         = repeat 30 2
      /\ length (observations
                   (trace_of (await_environment w 5 initial_globals))) = 3)
  /\ (outcome_of (await_environment w 1 initial_globals) = Polling
      /\ sleeps (trace_of (await_environment w 1 initial_globals))
         = repeat 30 1).
Proof.
  intros w t. split; [|split].
  - exact (proj1 (no_request_while_in_progress w 5 initial_globals)
             (firstn 26 t)
             (update_environment "shop" "shop-prod"
                "shop-1.0-20240309-120507")
             (Document "{updated}") (skipn 27 t) eq_refl eq_refl).
  - apply (proj1 (proj2 (proj2
             (no_request_while_in_progress w 5 initial_globals))) 2).
    + intros k Hk. exists [Sample.env "Updating"].
      destruct k as [|[|k]]; [now split|now split|lia].
    + reflexivity.
    + reflexivity.
    + lia.
  - apply (proj2 (proj2 (proj2
             (no_request_while_in_progress w 1 initial_globals)))).
    intros k Hk. exists [Sample.env "Updating"].
    destruct k as [|[|k]]; [now split|now split|lia].
Defined.

(** ** C4: the waiting notice *)

(** Once the notice is printed the loop does not print it again. *)
Lemma wait_loop_printed w fuel :
  forall k cfg g,
    waiting_notices (trace_of (wait_loop w fuel k cfg true g)) = 0.
Proof.
  induction fuel as [|fuel IH]; intros k cfg g;
    destruct (in_progress cfg) eqn:Hcfg.
  - now rewrite wait_loop_out_of_fuel.
  - now rewrite wait_loop_done.
  - rewrite wait_loop_step by assumption.
    destruct (eb_environments w (S k)) as [cfg1|e]; [|reflexivity].
    specialize (IH (S k) cfg1 g).
    destruct (wait_loop w fuel (S k) cfg1 true g) as [[t g'] o].
    unfold trace_of in *. simpl fst in *. exact IH.
  - now rewrite wait_loop_done.
Qed.

(** The wait, by its first poll. *)
Lemma await_environment_notice w fuel g :
  let ta := trace_of (await_environment w (S fuel) g) in
  match eb_environments w 0 with
  | Returns cfg0 =>
      if in_progress cfg0 then
        exists post,
          ta = Api (poll_request w) (Environments cfg0)
                 :: Print (MsgWaiting (full_environment_name w)) :: post
          /\ waiting_notices post = 0
      else ta = [Api (poll_request w) (Environments cfg0)]
  | Raises e => ta = [Api (poll_request w) (Failure e)]
  end.
Proof.
  cbv zeta. rewrite await_environment_eq.
  destruct (eb_environments w 0) as [cfg0|e]; [|reflexivity].
  destruct (in_progress cfg0) eqn:Hcfg.
  - rewrite wait_loop_step by assumption.
    destruct (eb_environments w 1) as [cfg1|e].
    + pose proof (wait_loop_printed w fuel 1 cfg1 g) as Hp.
      destruct (wait_loop w fuel 1 cfg1 true g) as [[t g'] o].
      unfold trace_of in *. simpl fst in *.
      eexists. split; [reflexivity|]. exact Hp.
    + eexists. split; reflexivity.
  - now rewrite wait_loop_done.
Qed.

(** C4. In a run followed for at least one turn of the loop, if some poll
    returns a description in progress then the waiting notice is printed
    exactly once, right after the first poll, which is the first one in
    progress; if no poll does, and so when the first description seen is
    quiescent, it is not printed. *)
Theorem waiting_notice_once (w : World) (fuel : nat) (g : globals) :
  let t := trace_of (main w (S fuel) g) in
  (existsb in_progress (observations t) = true ->
   waiting_notices t = 1
   /\ exists pre cfg post,
        t = pre ++ Api (poll_request w) (Environments cfg)
                   :: Print (MsgWaiting (full_environment_name w)) :: post
        /\ observations pre = []
        /\ in_progress cfg = true)
  /\ (existsb in_progress (observations t) = false -> waiting_notices t = 0)
  /\ (forall cfg rest,
        observations t = cfg :: rest ->
        in_progress cfg = false ->
        waiting_notices t = 0 /\ rest = []).
Proof.
  intros t.
  pose proof (main_phases w (S fuel) g) as Hmain. cbv zeta in Hmain.
  fold t in Hmain.
  destruct (prelude_event_quiet (register_new_version_prelude w g))
    as (Hobs & _ & Hnot & _).
  set (r := register_new_version w g) in *.
  assert (Hcases :
    (observations t = [] /\ waiting_notices t = 0)
    \/ (exists cfg post,
          in_progress cfg = true
          /\ t = trace_of r ++ Api (poll_request w) (Environments cfg)
                   :: Print (MsgWaiting (full_environment_name w)) :: post
          /\ waiting_notices post = 0)
    \/ (exists cfg, in_progress cfg = false
                    /\ observations t = [cfg] /\ waiting_notices t = 0)).
  { destruct (outcome_of r) as [label|e|].
    2,3: left; rewrite Hmain, app_nil_r; now split.
    pose proof (await_environment_notice w fuel (globals_of r)) as Ha.
    cbv zeta in Ha.
    set (a := await_environment w (S fuel) (globals_of r)) in *.
    assert (Hdec : forall cfg,
              observations (trace_of (create_or_update w label cfg
                                        (globals_of a))) = []
              /\ waiting_notices (trace_of (create_or_update w label cfg
                                              (globals_of a))) = 0).
    { intros cfg.
      destruct (create_or_update_sent w label cfg (globals_of a))
        as (_ & H1 & H2 & _). now split. }
    set (tail := match outcome_of a with
                 | Ok cfg =>
                     trace_of (create_or_update w label cfg (globals_of a))
                 | _ => []
                 end) in *.
    assert (Htail : observations tail = [] /\ waiting_notices tail = 0).
    { unfold tail. destruct (outcome_of a); auto. }
    assert (Hmain' : t = trace_of r ++ trace_of a ++ tail) by exact Hmain.
    clear Hmain. rename Hmain' into Hmain.
    destruct Htail as [Ho Hn].
    destruct (eb_environments w 0) as [cfg0|e].
    - destruct (in_progress cfg0) eqn:Hcfg.
      + right. left. destruct Ha as (post & Hta & Hpost).
        exists cfg0.
        exists (post ++ tail).
        split; [exact Hcfg|].
        rewrite Hmain, Hta. split; [reflexivity|].
        now rewrite waiting_notices_app, Hpost, Hn.
      + right. right. exists cfg0. split; [exact Hcfg|].
        rewrite Hmain, Ha, !observations_app, !waiting_notices_app.
        rewrite Hobs, Hnot, Ho, Hn. now split.
    - left. rewrite Hmain, Ha, !observations_app, !waiting_notices_app.
      rewrite Hobs, Hnot, Ho, Hn. now split. }
  destruct Hcases as [[Ho Hn]|[(cfg & post & Hcfg & Ht & Hpost)
                              |(cfg & Hcfg & Ho & Hn)]].
  - rewrite Ho. split; [discriminate|]. split; [auto|]. discriminate.
  - assert (Hn : waiting_notices t = 1).
    { rewrite Ht, waiting_notices_app, Hnot.
      unfold waiting_notices in *. simpl. now rewrite Hpost. }
    assert (Ho : exists rest, observations t = cfg :: rest).
    { rewrite Ht, observations_app, Hobs. unfold poll_request.
      simpl. eauto. }
    destruct Ho as [rest Ho]. split; [|split].
    + intros _. split; [exact Hn|]. exists (trace_of r), cfg, post. auto.
    + rewrite Ho. simpl. rewrite Hcfg. discriminate.
    + intros cfg' rest'. rewrite Ho. intros [= <- <-] Hq. congruence.
  - rewrite Ho. simpl. rewrite Hcfg. simpl.
    split; [discriminate|]. split; [auto|].
    intros cfg' rest' [= <- <-]. auto.
Qed.

Lemma waiting_notice_once_witness :
  waiting_notices
    (trace_of (main (Sample.busy_then 2 "Ready") 5 initial_globals)) = 1
  /\ waiting_notices
       (trace_of (main (Sample.busy_then 0 "Ready") 5 initial_globals)) = 0
  /\ waiting_notices
       (trace_of (main (Sample.busy_then 0 "Terminated") 1
                    initial_globals)) = 0.
Proof.
  split; [|split].
  - exact (proj1 (proj1
      (waiting_notice_once (Sample.busy_then 2 "Ready") 4 initial_globals)
      eq_refl)).
  - exact (proj1 (proj2
      (waiting_notice_once (Sample.busy_then 0 "Ready") 4 initial_globals))
      eq_refl).
  - exact (proj1 (proj2 (proj2
      (waiting_notice_once (Sample.busy_then 0 "Terminated") 0
         initial_globals))
      [Sample.env "Terminated"] [] eq_refl eq_refl)).
Defined.

(** ** C8: the upload *)

Lemma bucket_in_In b all : bucket_in b all = true <-> In b all.
Proof.
  unfold bucket_in. rewrite existsb_exists. split.
  - intros (x & Hx & Heq). apply String.eqb_eq in Heq. now subst.
  - intros H. exists b. split; [exact H|apply String.eqb_refl].
Qed.

(** The upload in closed form, once the account and the listing are
    known. *)
Lemma upload_application_version_eq w pkg g account all :
  sts_account w = Returns account ->
  s3_buckets w = Returns all ->
  let bucket :=
    source_bundle_s3_bucket_prefix +:+ "-" +:+ region_name w +:+ "-"
    +:+ account in
  let head :=
    [Api get_caller_identity (Account account);
     Api buckets_all (Buckets all)] in
  let put := put_object bucket (pkg +:+ ".zip") (pkg +:+ ".zip") in
  let create := create_bucket "private" bucket (region_name w) in
  let finish (pre : trace) : trace * globals * outcome string :=
    match s3_put_object w with
    | Returns o =>
        (pre ++ [Api put (Document o); Print (MsgObject o)], g, Ok bucket)
    | Raises e => (pre ++ [Api put (Failure e)], g, Raised e)
    end in
  upload_application_version w pkg g
  = if bucket_in bucket all then finish head
    else match s3_create_bucket w with
         | Returns text => finish (head ++ [Api create (Document text)])
         | Raises e => (head ++ [Api create (Failure e)], g, Raised e)
         end.
Proof.
  intros Ha Hb. cbv zeta.
  unfold upload_application_version, call, bind, emit, ret, raise, print.
  rewrite Ha, Hb. cbv beta iota.
  destruct (bucket_in _ all); cbv beta iota.
  - destruct (s3_put_object w); reflexivity.
  - destruct (s3_create_bucket w); [|reflexivity].
    destruct (s3_put_object w); reflexivity.
Qed.

(** C8. The upload names the bucket [elasticbeanstalk-<region>-<account>],
    lists the buckets, creates that bucket only when the listing does not
    have it, and then puts the archive under the key [<package>.zip]: when
    the creation is refused no put-object is sent, and in every run each
    put-object goes to a bucket that the listing had or that has just been
    created.  The name of the bucket is what the step returns. *)
Theorem upload_ensures_bucket (w : World) (pkg : string) (g : globals) :
  let r := upload_application_version w pkg g in
  let sent := requests (trace_of r) in
  put_after_ensure [] (trace_of r) = true
  /\ forall account all,
       sts_account w = Returns account ->
       s3_buckets w = Returns all ->
       let bucket :=
         "elasticbeanstalk-" +:+ region_name w +:+ "-" +:+ account in
       let put := put_object bucket (pkg +:+ ".zip") (pkg +:+ ".zip") in
       let create := create_bucket "private" bucket (region_name w) in
       (In bucket all ->
        sent = [get_caller_identity; buckets_all; put])
       /\ (~ In bucket all ->
           (forall text, s3_create_bucket w = Returns text ->
              sent = [get_caller_identity; buckets_all; create; put])
           /\ (forall e, s3_create_bucket w = Raises e ->
                 sent = [get_caller_identity; buckets_all; create]))
       /\ (forall name, outcome_of r = Ok name -> name = bucket).
Proof.
  cbv zeta. split.
  - destruct (sts_account w) as [account|e] eqn:Ha;
      [|unfold upload_application_version; rewrite Ha; reflexivity].
    destruct (s3_buckets w) as [all|e] eqn:Hb;
      [|unfold upload_application_version; rewrite Ha, Hb; reflexivity].
    rewrite (upload_application_version_eq w pkg g Ha Hb). cbv zeta.
    generalize (source_bundle_s3_bucket_prefix +:+ "-" +:+ region_name w
                +:+ "-" +:+ account) as bucket.
    intros bucket. unfold bucket_in.
    destruct (existsb (String.eqb bucket) all) eqn:Hin.
    + destruct (s3_put_object w); simpl; rewrite app_nil_r, Hin;
        reflexivity.
    + destruct (s3_create_bucket w); [|reflexivity].
      destruct (s3_put_object w); simpl; rewrite String.eqb_refl;
        reflexivity.
  - intros account all Ha Hb.
    rewrite (upload_application_version_eq w pkg g Ha Hb). cbv zeta.
    change ("elasticbeanstalk-" +:+ region_name w +:+ "-" +:+ account)
      with (source_bundle_s3_bucket_prefix +:+ "-" +:+ region_name w
            +:+ "-" +:+ account).
    generalize (source_bundle_s3_bucket_prefix +:+ "-" +:+ region_name w
                +:+ "-" +:+ account) as bucket.
    intros bucket. pose proof (bucket_in_In bucket all) as Hiff.
    destruct (bucket_in bucket all) eqn:Hin.
    + split; [|split].
      * intros _. destruct (s3_put_object w); reflexivity.
      * intros Hn. exfalso. apply Hn. now apply Hiff.
      * destruct (s3_put_object w); simpl; [|discriminate].
        now intros name [= <-].
    + split; [|split].
      * intros Hi. apply Hiff in Hi. discriminate.
      * intros _. split.
        -- intros text ->. destruct (s3_put_object w); reflexivity.
        -- intros e ->. reflexivity.
      * destruct (s3_create_bucket w); simpl; [|discriminate].
        destruct (s3_put_object w); simpl; [|discriminate].
        now intros name [= <-].
Qed.

Lemma upload_ensures_bucket_witness :
  requests (trace_of (upload_application_version Sample.fresh "shop-1.0-x"
                        initial_globals))
  = [get_caller_identity; buckets_all;
     create_bucket "private" "elasticbeanstalk-eu-west-1-123456789012"
       "eu-west-1";
     put_object "elasticbeanstalk-eu-west-1-123456789012" "shop-1.0-x.zip"
       "shop-1.0-x.zip"]
  /\ requests (trace_of (upload_application_version
                           (Sample.busy_then 0 "Ready") "shop-1.0-x"
                           initial_globals))
     = [get_caller_identity; buckets_all;
        put_object "elasticbeanstalk-eu-west-1-123456789012"
          "shop-1.0-x.zip" "shop-1.0-x.zip"]
  /\ "elasticbeanstalk-eu-west-1-123456789012"
     = "elasticbeanstalk-" +:+ "eu-west-1" +:+ "-" +:+ "123456789012".
Proof.
  split; [|split].
  - refine (proj1 (proj1 (proj2 (proj2
      (upload_ensures_bucket Sample.fresh "shop-1.0-x" initial_globals)
      "123456789012" [] eq_refl eq_refl)) _) "{bucket}" eq_refl).
    intros [].
  - refine (proj1 (proj2
      (upload_ensures_bucket (Sample.busy_then 0 "Ready") "shop-1.0-x"
         initial_globals)
      "123456789012" ["elasticbeanstalk-eu-west-1-123456789012"]
      eq_refl eq_refl) _).
    left. reflexivity.
  - exact (proj2 (proj2 (proj2
      (upload_ensures_bucket Sample.fresh "shop-1.0-x" initial_globals)
      "123456789012" [] eq_refl eq_refl))
      "elasticbeanstalk-eu-west-1-123456789012" eq_refl).
Defined.

(** ** C7: the exit status of the build *)

(** Against C7 as stated.  At the concrete world [Sample.failed_build] the
    build exits with
    status 1, and the run still packages, uploads, registers the version
    and ends without an exception. *)
Lemma failed_build_still_deploys :
  let t := trace_of (main Sample.failed_build 1 initial_globals) in
  (exists p, gradlew_build Sample.failed_build = Returns p
             /\ returncode p = 1%Z)
  /\ outcome_of (main Sample.failed_build 1 initial_globals) = Ok tt
  /\ map fst (archives t) = ["shop-1.0-20240309-120507.zip"]
  /\ filter is_put_object (requests t)
     = [put_object "elasticbeanstalk-eu-west-1-123456789012"
          "shop-1.0-20240309-120507.zip" "shop-1.0-20240309-120507.zip"]
  /\ filter is_create_application_version (requests t)
     = [create_application_version "shop" "shop-1.0-20240309-120507"
          "elasticbeanstalk-eu-west-1-123456789012"
          "shop-1.0-20240309-120507.zip" false true].
Proof.
  cbv zeta. split; [eexists; split; reflexivity|].
  repeat split; reflexivity.
Qed.

Lemma build_application_returncode w rc g :
  build_application (with_returncode w rc) g = build_application w g.
Proof.
  unfold build_application. cbn [gradlew_build with_returncode].
  destruct (gradlew_build w); reflexivity.
Qed.

(** C7, as the code has it.  The exit status of the build process is never
    read: with any other exit status the build step and the whole run do
    the same, and whenever the process could be started the build step
    ends well, so that packaging comes next. *)
Theorem build_status_not_inspected (w : World) (rc : Z) (fuel : nat)
    (g : globals) :
  build_application (with_returncode w rc) g = build_application w g
  /\ main (with_returncode w rc) fuel g = main w fuel g
  /\ match gradlew_build w with
     | Returns p => outcome_of (build_application w g) = Ok tt
     | Raises e => outcome_of (build_application w g) = Raised e
     end.
Proof.
  split; [apply build_application_returncode|]. split.
  - unfold main, register_new_version, bind.
    change (ensure_application (with_returncode w rc) g)
      with (ensure_application w g).
    destruct (ensure_application w g) as [[t1 g1] [[]|e|]]; try reflexivity.
    destruct (print MsgBuild g1) as [[t2 g2] [[]|e|]]; try reflexivity.
    rewrite build_application_returncode.
    destruct (build_application w g2) as [[t3 g3] [[]|e|]]; reflexivity.
  - unfold build_application, print_result, print, emit, bind, outcome_of.
    destruct (gradlew_build w) as [p|e]; simpl; [|reflexivity].
    destruct (String.eqb (stdout p) ""), (String.eqb (stderr p) "");
      reflexivity.
Qed.

(** ** The prelude, step by step *)

Lemma register_new_version_phases w g :
  let e := ensure_application w g in
  let b := build_application w g in
  let p := package_application w g in
  trace_of (register_new_version w g)
  = trace_of e
    ++ match outcome_of e with
       | Ok _ =>
           Print MsgBuild
           :: trace_of b
           ++ match outcome_of b with
              | Ok _ =>
                  Print MsgPackage
                  :: trace_of p
                  ++ match outcome_of p with
                     | Ok pkg =>
                         trace_of (upload_and_register w pkg (globals_of p))
                     | _ => []
                     end
              | _ => []
              end
       | _ => []
       end.
Proof.
  cbv zeta. unfold register_new_version. rewrite bind_trace.
  destruct (outcome_of (ensure_application w g)); try reflexivity.
  rewrite ensure_application_globals, bind_trace.
  change (outcome_of (print MsgBuild g)) with (Ok (A:=unit) tt).
  change (globals_of (print MsgBuild g)) with g.
  change (trace_of (print MsgBuild g)) with [Print MsgBuild].
  cbv iota. rewrite bind_trace.
  destruct (outcome_of (build_application w g)); try reflexivity.
  rewrite build_application_globals, bind_trace.
  change (outcome_of (print MsgPackage g)) with (Ok (A:=unit) tt).
  change (globals_of (print MsgPackage g)) with g.
  change (trace_of (print MsgPackage g)) with [Print MsgPackage].
  cbv iota. rewrite bind_trace. reflexivity.
Qed.

Lemma register_new_version_outcome w g :
  outcome_of (register_new_version w g)
  = match outcome_of (ensure_application w g) with
    | Ok _ =>
        match outcome_of (build_application w g) with
        | Ok _ =>
            match outcome_of (package_application w g) with
            | Ok pkg =>
                outcome_of (upload_and_register w pkg
                              (globals_of (package_application w g)))
            | Raised x => Raised x
            | Polling => Polling
            end
        | Raised x => Raised x
        | Polling => Polling
        end
    | Raised x => Raised x
    | Polling => Polling
    end.
Proof.
  unfold register_new_version. rewrite bind_outcome.
  destruct (outcome_of (ensure_application w g)); try reflexivity.
  rewrite ensure_application_globals, bind_outcome.
  change (outcome_of (print MsgBuild g)) with (Ok (A:=unit) tt).
  change (globals_of (print MsgBuild g)) with g.
  cbv iota. rewrite bind_outcome.
  destruct (outcome_of (build_application w g)); try reflexivity.
  rewrite build_application_globals, bind_outcome.
  change (outcome_of (print MsgPackage g)) with (Ok (A:=unit) tt).
  change (globals_of (print MsgPackage g)) with g.
  cbv iota. rewrite bind_outcome. reflexivity.
Qed.

Lemma main_outcome_raised w fuel g x :
  outcome_of (register_new_version w g) = Raised x ->
  outcome_of (main w fuel g) = Raised x
  /\ trace_of (main w fuel g) = trace_of (register_new_version w g).
Proof.
  intros H. unfold main. rewrite bind_outcome, bind_trace, H.
  now rewrite app_nil_r.
Qed.

Lemma archive_free_archives t :
  Forall archive_free t ->
  archives t = [] /\ filter is_put_object (requests t) = [].
Proof.
  induction 1 as [|e t He _ [IH1 IH2]]; [now split|].
  destruct e; simpl in *; try contradiction; auto. now rewrite He.
Qed.

(** Neither the application step nor the build writes an archive or
    uploads. *)
Lemma ensure_application_archive_free w g :
  Forall archive_free (trace_of (ensure_application w g)).
Proof.
  unfold ensure_application, print_response. walk; try exact I; reflexivity.
Qed.

Lemma build_application_archive_free w g :
  Forall archive_free (trace_of (build_application w g)).
Proof.
  unfold build_application, print_result. walk; exact I.
Qed.

(** ** Packaging in closed form *)

Lemma package_application_empty w g :
  Glob.glob application_path ".jar" (libs w) = [] ->
  package_application w g
  = ([GlobDir "./build/libs/*.jar"], g, Raised IndexError).
Proof.
  intros H. unfold package_application, bind, emit, subscript0.
  rewrite H. reflexivity.
Qed.

Lemma package_application_found w g f rest :
  Glob.glob application_path ".jar" (libs w) = f :: rest ->
  let name := package_name w f in
  let files := elasticbeanstalk_files_list g ++ [f] in
  let g' := {| elasticbeanstalk_files_list := files |} in
  package_application w g
  = match zip_write_all w files [] with
    | (entries, None) =>
        ([GlobDir "./build/libs/*.jar"; ZipWritten (name +:+ ".zip") entries;
          Print (MsgZipped name)], g', Ok name)
    | (entries, Some e) =>
        ([GlobDir "./build/libs/*.jar"; ZipWritten (name +:+ ".zip") entries],
         g', Raised e)
    end.
Proof.
  intros H. cbv zeta.
  unfold package_application, bind, emit, subscript0, with_ZipFile,
    get_files_list, files_list_append, print, ret, raise, package_name.
  rewrite H. cbv beta iota.
  cbn [elasticbeanstalk_files_list].
  destruct (zip_write_all w (elasticbeanstalk_files_list g ++ [f]) [])
    as [entries [e|]]; reflexivity.
Qed.

(** The first match of [glob] is the first entry of the listing that is
    not hidden and ends in [.jar]. *)
Lemma glob_skips skipped :
  Forall not_a_jar skipped ->
  filter (Glob.fnmatch_star ".jar")
         (filter (fun x => negb (Glob.ishidden x)) skipped) = [].
Proof.
  induction 1 as [|x l [Hx|Hx] _ IH]; cbn [filter]; [reflexivity| |].
  - rewrite Hx. exact IH.
  - destruct (Glob.ishidden x); cbn [negb filter]; [exact IH|].
    rewrite Hx. exact IH.
Qed.

Lemma glob_first_match skipped entry more :
  Forall not_a_jar skipped ->
  is_a_jar entry ->
  Glob.glob application_path ".jar" (skipped ++ entry :: more)
  = (application_path +:+ "/" +:+ entry)
      :: Glob.glob application_path ".jar" more.
Proof.
  intros Hs [Hh Hm]. unfold Glob.glob.
  rewrite !filter_app, (glob_skips Hs). cbn [filter app].
  rewrite Hh. cbn [negb filter]. rewrite Hm. reflexivity.
Qed.

Lemma glob_no_match listing :
  Forall not_a_jar listing ->
  Glob.glob application_path ".jar" listing = [].
Proof.
  intros H. unfold Glob.glob. now rewrite (glob_skips H).
Qed.

(** ** C6: no artifact *)

(** Against C6 as stated.  At the concrete world [Sample.no_artifact]
    nothing matches, and
    packaging ends with the [IndexError] of the subscript, which is not an
    [ArtifactNotFoundError] and which nothing catches: the run ends with
    it. *)
Lemma no_artifact_is_IndexError :
  Glob.glob application_path ".jar" (libs Sample.no_artifact) = []
  /\ outcome_of (package_application Sample.no_artifact initial_globals)
     = Raised IndexError
  /\ ~ (exists e,
          outcome_of (package_application Sample.no_artifact initial_globals)
          = Raised e
          /\ exception_name e = "ArtifactNotFoundError")
  /\ outcome_of (main Sample.no_artifact 1 initial_globals)
     = Raised IndexError.
Proof.
  repeat split; try reflexivity.
  intros (e & He & Hname). vm_compute in He. injection He as <-.
  discriminate Hname.
Qed.

(** C6, as the code has it.  When no entry of the build output directory
    is a visible [*.jar], packaging ends with the [IndexError] of [[0]] on
    the empty list of matches, before it touches the list of files or
    writes an archive; nothing catches it, so a run that got that far ends
    with it, without archive and without upload.  When several entries
    match, the first in the order of the listing is the one packaged. *)
Theorem package_without_artifact (w : World) (g : globals) :
  (Forall not_a_jar (libs w) ->
   package_application w g
   = ([GlobDir "./build/libs/*.jar"], g, Raised IndexError)
   /\ forall fuel,
        outcome_of (ensure_application w g) = Ok tt ->
        outcome_of (build_application w g) = Ok tt ->
        outcome_of (main w fuel g) = Raised IndexError
        /\ archives (trace_of (main w fuel g)) = []
        /\ filter is_put_object (requests (trace_of (main w fuel g))) = [])
  /\ (forall skipped entry more,
        libs w = skipped ++ entry :: more ->
        Forall not_a_jar skipped ->
        is_a_jar entry ->
        let f := "./build/libs/" +:+ entry in
        elasticbeanstalk_files_list (globals_of (package_application w g))
        = elasticbeanstalk_files_list g ++ [f]
        /\ map fst (archives (trace_of (package_application w g)))
           = [package_name w f +:+ ".zip"]
        /\ forall name,
             outcome_of (package_application w g) = Ok name ->
             name = package_name w f).
Proof.
  split.
  - intros Hnone. pose proof (glob_no_match Hnone) as Hglob.
    pose proof (package_application_empty w g Hglob) as Hp.
    split; [exact Hp|]. intros fuel He Hb.
    assert (Hr : outcome_of (register_new_version w g) = Raised IndexError).
    { now rewrite register_new_version_outcome, He, Hb, Hp. }
    destruct (main_outcome_raised w fuel g Hr) as [Ho Ht].
    split; [exact Ho|]. rewrite Ht, register_new_version_phases.
    cbv zeta. rewrite He, Hb, Hp.
    apply archive_free_archives.
    apply Forall_app. split; [apply ensure_application_archive_free|].
    constructor; [exact I|].
    apply Forall_app. split; [apply build_application_archive_free|].
    repeat constructor.
  - intros skipped entry more Hl Hs He f.
    pose proof (glob_first_match more Hs He) as Hglob. rewrite <- Hl in Hglob.
    pose proof (package_application_found w g Hglob) as Hp.
    cbv zeta in Hp.
    change (application_path +:+ "/" +:+ entry) with f in Hp.
    rewrite Hp.
    destruct (zip_write_all w (elasticbeanstalk_files_list g ++ [f]) [])
      as [entries [e|]]; repeat split; try reflexivity.
    + discriminate.
    + now intros name [= <-].
Qed.

Lemma package_without_artifact_witness :
  package_application Sample.no_artifact initial_globals
  = ([GlobDir "./build/libs/*.jar"], initial_globals, Raised IndexError)
  /\ outcome_of (main Sample.no_artifact 3 initial_globals)
     = Raised IndexError
  /\ elasticbeanstalk_files_list
       (globals_of (package_application
                      (Sample.with_libs Sample.fresh
                         [".hidden.jar"; "notes.txt"; "shop-1.0.jar";
                          "other.jar"])
                      initial_globals))
     = ["./Dockerrun.aws.json"; "./Dockerfile"; "env.yaml";
        "./build/libs/shop-1.0.jar"].
Proof.
  split; [|split].
  - exact (proj1 (proj1 (package_without_artifact Sample.no_artifact
                           initial_globals) (Forall_nil _))).
  - exact (proj1 (proj2 (proj1 (package_without_artifact Sample.no_artifact
                                  initial_globals) (Forall_nil _))
                    3 eq_refl eq_refl)).
  - refine (proj1 (proj2 (package_without_artifact
                            (Sample.with_libs Sample.fresh
                               [".hidden.jar"; "notes.txt"; "shop-1.0.jar";
                                "other.jar"])
                            initial_globals)
                     [".hidden.jar"; "notes.txt"] "shop-1.0.jar"
                     ["other.jar"] eq_refl _ _)).
    + apply Forall_cons; [left; reflexivity|].
      apply Forall_cons; [right; reflexivity|].
      apply Forall_nil.
    + split; reflexivity.
Defined.

(** ** Strings and paths *)

Lemma append_nil_r s : s +:+ "" = s.
Proof. induction s as [|c s IH]; simpl; [reflexivity|now rewrite IH]. Qed.

Lemma append_assoc a b c : (a +:+ b) +:+ c = a +:+ b +:+ c.
Proof. induction a as [|x a IH]; simpl; [reflexivity|now rewrite IH]. Qed.

Lemma length_append a b :
  String.length (a +:+ b) = String.length a + String.length b.
Proof. induction a as [|x a IH]; simpl; [reflexivity|now rewrite IH]. Qed.

Lemma contains_append c a b :
  Str.contains c (a +:+ b) = Str.contains c a || Str.contains c b.
Proof.
  induction a as [|x a IH]; simpl; [reflexivity|].
  now rewrite IH, orb_assoc.
Qed.

Lemma rfind_lower c s : (-1 <= Str.rfind c s)%Z.
Proof.
  induction s as [|a s IH]; simpl; [lia|].
  destruct (0 <=? Str.rfind c s)%Z eqn:H; [apply Z.leb_le in H; lia|].
  destruct (Ascii.eqb a c); lia.
Qed.

Lemma rfind_absent c s : Str.contains c s = false -> Str.rfind c s = (-1)%Z.
Proof.
  induction s as [|a s IH]; simpl; [reflexivity|].
  intros H. apply orb_false_iff in H. destruct H as [Ha Hs].
  rewrite (IH Hs), Ha. reflexivity.
Qed.

(** The last occurrence of [c] in [a + c + b] when [b] has none. *)
Lemma rfind_last c a b :
  Str.contains c b = false ->
  Str.rfind c (a +:+ String c b) = Z.of_nat (String.length a).
Proof.
  intros Hb. induction a as [|x a IH].
  - simpl. rewrite (rfind_absent _ _ Hb). simpl.
    now rewrite Ascii.eqb_refl.
  - cbn [String.append Str.rfind String.length]. rewrite IH.
    destruct (0 <=? Z.of_nat (String.length a))%Z eqn:H; [lia|].
    apply Z.leb_gt in H. lia.
Qed.

Lemma drop_append a b : Str.drop (String.length a) (a +:+ b) = b.
Proof. induction a as [|x a IH]; simpl; [now destruct b|exact IH]. Qed.

Lemma take_append a b : Str.take (String.length a) (a +:+ b) = a.
Proof.
  induction a as [|x a IH]; simpl; [now destruct b|now rewrite IH].
Qed.

Lemma take_drop n s : Str.take n s +:+ Str.drop n s = s.
Proof.
  revert s. induction n as [|n IH]; intros [|c s]; simpl; try reflexivity.
  now rewrite IH.
Qed.

Lemma append_inj_r a b c : a +:+ c = b +:+ c -> a = b.
Proof.
  intros H.
  assert (Hlen : String.length a = String.length b).
  { apply (f_equal String.length) in H. rewrite !length_append in H. lia. }
  rewrite <- (take_append a c), <- (take_append b c). now rewrite Hlen, H.
Qed.

(** [basename] of a path whose last component is [e]. *)
Lemma basename_join dir e :
  Str.contains "/" e = false ->
  Posixpath.basename (dir +:+ "/" +:+ e) = e.
Proof.
  intros He. unfold Posixpath.basename, Posixpath.sep.
  change (dir +:+ "/" +:+ e) with (dir +:+ String "/" e).
  rewrite (rfind_last _ dir _ He).
  replace (Z.to_nat (Z.of_nat (String.length dir) + 1))
    with (String.length (dir +:+ "/"))
    by (rewrite length_append; simpl; lia).
  replace (dir +:+ String "/" e) with ((dir +:+ "/") +:+ e)
    by (now rewrite append_assoc).
  apply drop_append.
Qed.

(** [splitext] of a name that does not start with a dot and ends in an
    extension without dots. *)
Lemma splitext_stem c r ext :
  c <> "."%char ->
  Str.contains "/" (String c r) = false ->
  Str.contains "/" ext = false ->
  Str.contains "." ext = false ->
  Posixpath.splitext (String c r +:+ String "." ext)
  = (String c r, String "." ext).
Proof.
  intros Hc Hs He Hd.
  set (stem := String c r) in *.
  unfold Posixpath.splitext, Posixpath.sep, Posixpath.extsep.
  rewrite (rfind_last _ stem _ Hd).
  rewrite rfind_absent
    by (rewrite contains_append, Hs; simpl; exact He).
  replace (-1 <? Z.of_nat (String.length stem))%Z with true
    by (symmetry; apply Z.ltb_lt; lia).
  rewrite Nat2Z.id. change (Z.to_nat (-1 + 1)) with 0.
  rewrite Nat.sub_0_r.
  assert (Hscan : Posixpath.splitext_scan (stem +:+ String "." ext) 0
                    (String.length stem) = true).
  { unfold stem.
    cbn [Posixpath.splitext_scan String.get String.append String.length].
    unfold Posixpath.extsep. apply Ascii.eqb_neq in Hc. now rewrite Hc. }
  rewrite Hscan. now rewrite take_append, drop_append.
Qed.

Lemma endswith_split suffix s :
  Str.endswith suffix s = true -> exists stem, s = stem +:+ suffix.
Proof.
  unfold Str.endswith. intros H. apply andb_prop in H. destruct H as [_ H].
  apply String.eqb_eq in H.
  exists (Str.take (String.length s - String.length suffix) s).
  set (n := String.length s - String.length suffix) in *.
  transitivity (Str.take n s +:+ Str.drop n s);
    [symmetry; apply take_drop|now rewrite H].
Qed.

(** What an entry that [glob] returns for [*.jar] looks like. *)
Lemma is_a_jar_stem entry :
  is_a_jar entry ->
  exists c r, c <> "."%char /\ entry = String c r +:+ ".jar".
Proof.
  intros [Hh Hm]. destruct (endswith_split _ _ Hm) as [stem ->].
  destruct stem as [|c r]; [discriminate Hh|].
  exists c, r. split; [|reflexivity].
  unfold Glob.ishidden, Str.startswith in Hh. simpl in Hh.
  destruct (ascii_dec "." c) as [Heq|Hne]; [|congruence].
  subst c. now destruct r.
Qed.

(** ** The timestamp *)

Lemma strftime_stamp t : Time.strftime "%Y%m%d-%H%M%S" t = stamp t.
Proof.
  unfold stamp. cbn [Time.strftime Ascii.eqb Bool.eqb Time.directive].
  now rewrite append_nil_r.
Qed.

Lemma decimal_from_small fuel n acc :
  n < 10 ->
  Time.decimal_from (S fuel) n acc = String (Time.digit (n mod 10)) acc.
Proof.
  intros H. simpl. apply Nat.ltb_lt in H. now rewrite H.
Qed.

Lemma decimal_from_step fuel n acc :
  10 <= n ->
  Time.decimal_from (S fuel) n acc
  = Time.decimal_from fuel (n / 10) (String (Time.digit (n mod 10)) acc).
Proof.
  intros H. cbn [Time.decimal_from].
  replace (n <? 10)%nat with false by (symmetry; apply Nat.ltb_ge; exact H).
  reflexivity.
Qed.

(** [%02d] of a number under 100 is two digits. *)
Lemma pad2_digits n :
  n < 100 ->
  Time.pad2 n
  = String (Time.digit (n / 10)) (String (Time.digit (n mod 10)) "").
Proof.
  intros H. unfold Time.pad2, Time.decimal.
  destruct (n <? 10)%nat eqn:Hn.
  - apply Nat.ltb_lt in Hn. rewrite decimal_from_small by exact Hn.
    now rewrite (Nat.div_small n 10) by exact Hn.
  - apply Nat.ltb_ge in Hn. rewrite decimal_from_step by exact Hn.
    destruct n as [|n]; [lia|].
    assert (Hq : S n / 10 < 10)
      by (apply Nat.Div0.div_lt_upper_bound; lia).
    rewrite decimal_from_small by exact Hq.
    now rewrite (Nat.mod_small _ 10) by exact Hq.
Qed.

Lemma decimal_from_four fuel n acc :
  1000 <= n < 10 * 1000 ->
  Time.decimal_from (S (S (S (S fuel)))) n acc
  = String (Time.digit (n / 1000))
      (String (Time.digit (n / 100 mod 10))
         (String (Time.digit (n / 10 mod 10))
            (String (Time.digit (n mod 10)) acc))).
Proof.
  intros H.
  rewrite decimal_from_step by lia.
  assert (H1 : 100 <= n / 10) by (apply Nat.div_le_lower_bound; lia).
  rewrite decimal_from_step by lia.
  assert (H2 : 10 <= n / 10 / 10) by (apply Nat.div_le_lower_bound; lia).
  rewrite decimal_from_step by lia.
  assert (H3 : n / 10 / 10 / 10 < 10).
  { rewrite !Nat.Div0.div_div. apply Nat.Div0.div_lt_upper_bound.
    simpl Nat.mul. lia. }
  rewrite decimal_from_small by exact H3.
  rewrite (Nat.mod_small _ 10) by exact H3.
  rewrite !Nat.Div0.div_div. reflexivity.
Qed.

(** [%Y] of a year from 1000 to 9999 is four digits. *)
Lemma decimal_year y :
  1000 <= y < 10 * 1000 ->
  Time.decimal y
  = String (Time.digit (y / 1000))
      (String (Time.digit (y / 100 mod 10))
         (String (Time.digit (y / 10 mod 10))
            (String (Time.digit (y mod 10)) ""))).
Proof.
  intros H. unfold Time.decimal.
  replace (S y) with (S (S (S (S (y - 3))))) by lia.
  now apply decimal_from_four.
Qed.

Lemma stamp_length t : four_digit_year t -> String.length (stamp t) = 15.
Proof.
  intros (Hy & Hm & Hd & HH & HM & HS). unfold stamp.
  rewrite (decimal_year Hy), !pad2_digits by assumption. reflexivity.
Qed.

(** ** C5: the package name *)

(** Against C5 as stated.  At the concrete world [Sample.fresh], a machine
    two hours east of UTC,
    the package is named after the local time 12:05:07, not after the UTC
    time 10:05:07 of the same instant. *)
Lemma label_is_not_utc :
  outcome_of (package_application Sample.fresh initial_globals)
  = Ok "shop-1.0-20240309-120507"
  /\ "shop-1.0" +:+ "-"
     +:+ Time.strftime "%Y%m%d-%H%M%S" (Time.gmtime (now Sample.fresh))
     = "shop-1.0-20240309-100507"
  /\ outcome_of (package_application Sample.fresh initial_globals)
     <> Ok ("shop-1.0" +:+ "-"
            +:+ Time.strftime "%Y%m%d-%H%M%S"
                  (Time.gmtime (now Sample.fresh))).
Proof.
  repeat split; try reflexivity. vm_compute. discriminate.
Qed.

Lemma package_name_stem w c r :
  c <> "."%char ->
  Str.contains "/" (String c r) = false ->
  package_name w ("./build/libs/" +:+ String c r +:+ ".jar")
  = String c r +:+ "-" +:+ stamp (Time.localtime (now w)).
Proof.
  intros Hc Hs. unfold package_name.
  change ("./build/libs/" +:+ String c r +:+ ".jar")
    with (application_path +:+ "/" +:+ (String c r +:+ ".jar")).
  rewrite basename_join
    by (rewrite contains_append, Hs; reflexivity).
  change ".jar" with (String "." "jar").
  rewrite splitext_stem by (assumption || reflexivity).
  now rewrite strftime_stamp.
Qed.

(** C5, as the code has it.  When the first visible [*.jar] entry of the
    build output directory is [<stem>.jar], the package name, which is also
    the version label, is [<stem>-<stamp>] where the stamp is the local
    time of the machine ([time.strftime] without a time argument formats
    [localtime()], not UTC) as [YYYYMMDD-HHMMSS], 15 characters for a
    four-digit year; packaging returns that name whenever every file to
    zip can be read.  The name depends on the directory listing and the
    local time only. *)
Theorem package_name_is_stem_and_local_time (w : World) (g : globals) :
  (forall skipped stem more,
     libs w = skipped ++ (stem +:+ ".jar") :: more ->
     Forall not_a_jar skipped ->
     is_a_jar (stem +:+ ".jar") ->
     Str.contains "/" stem = false ->
     let t := Time.localtime (now w) in
     let name := stem +:+ "-" +:+ stamp t in
     let files :=
       elasticbeanstalk_files_list g ++ ["./build/libs/" +:+ stem +:+ ".jar"]
     in
     (forall label,
        outcome_of (package_application w g) = Ok label -> label = name)
     /\ (snd (zip_write_all w files []) = None ->
         outcome_of (package_application w g) = Ok name)
     /\ (four_digit_year t ->
         String.length name = String.length stem + 16))
  /\ (forall w' g' label label',
        libs w' = libs w ->
        Time.localtime (now w') = Time.localtime (now w) ->
        outcome_of (package_application w g) = Ok label ->
        outcome_of (package_application w' g') = Ok label' ->
        label = label').
Proof.
  split.
  - intros skipped stem more Hl Hs Hj Hslash t name files.
    destruct (is_a_jar_stem Hj) as (c & r & Hc & Heq).
    assert (Hstem : stem = String c r) by (now apply append_inj_r in Heq).
    pose proof (glob_first_match more Hs Hj) as Hglob.
    rewrite <- Hl in Hglob.
    pose proof (package_application_found w g Hglob) as Hp.
    cbv zeta in Hp.
    change (application_path +:+ "/" +:+ stem +:+ ".jar")
      with ("./build/libs/" +:+ stem +:+ ".jar") in Hp.
    assert (Hname : package_name w ("./build/libs/" +:+ stem +:+ ".jar")
                    = name).
    { unfold name, t. rewrite Hstem. rewrite Hstem in Hslash.
      now apply package_name_stem. }
    rewrite Hname in Hp. fold files in Hp. rewrite Hp.
    assert (Hlen : four_digit_year t ->
                   String.length name = String.length stem + 16).
    { intros Hy. unfold name.
      rewrite length_append. simpl. rewrite (stamp_length Hy). lia. }
    destruct (zip_write_all w files []) as [entries [e|]]; simpl;
      (split; [|split; [|exact Hlen]]); try discriminate; auto.
    now intros label [= <-].
  - intros w' g' label label' Hl Ht.
    destruct (Glob.glob application_path ".jar" (libs w)) as [|f rest]
      eqn:Hglob.
    + now rewrite (package_application_empty w g Hglob).
    + assert (Hglob' : Glob.glob application_path ".jar" (libs w')
                       = f :: rest) by (now rewrite Hl).
      rewrite (package_application_found w g Hglob).
      rewrite (package_application_found w' g' Hglob'). cbv zeta.
      assert (Hn : package_name w' f = package_name w f)
        by (unfold package_name; now rewrite Ht).
      rewrite Hn.
      destruct (zip_write_all w _ []) as [entries [e|]];
        destruct (zip_write_all w' _ []) as [entries' [e'|]]; simpl;
        try discriminate.
      now intros [= <-] [= <-].
Qed.

Lemma package_name_is_stem_and_local_time_witness :
  outcome_of (package_application Sample.fresh initial_globals)
  = Ok ("shop-1.0" +:+ "-" +:+ stamp Sample.noon)
  /\ String.length ("shop-1.0" +:+ "-" +:+ stamp Sample.noon) = 8 + 16
  /\ "shop-1.0-20240309-120507" = "shop-1.0-20240309-120507".
Proof.
  pose proof (proj1 (package_name_is_stem_and_local_time Sample.fresh
                       initial_globals)
                [] "shop-1.0" [] eq_refl (Forall_nil _)
                (conj eq_refl eq_refl) eq_refl) as H.
  cbv zeta in H. destruct H as (_ & Hok & Hlen).
  split; [exact (Hok eq_refl)|]. split.
  - apply Hlen. unfold four_digit_year. simpl. lia.
  - exact (proj2 (package_name_is_stem_and_local_time Sample.fresh
                    initial_globals)
             (Sample.busy_then 1 "Ready")
             {| elasticbeanstalk_files_list := ["env.yaml"] |}
             "shop-1.0-20240309-120507" "shop-1.0-20240309-120507"
             eq_refl eq_refl eq_refl eq_refl).
Defined.

(** ** Member names *)

Lemma split_from_no_sep sep cur s :
  Str.contains sep s = false -> Str.split_from sep cur s = [cur +:+ s].
Proof.
  revert cur. induction s as [|a s IH]; intros cur; simpl.
  - now rewrite append_nil_r.
  - intros H. apply orb_false_iff in H. destruct H as [Ha Hs].
    rewrite Ha, (IH _ Hs), append_assoc. reflexivity.
Qed.

Lemma split_artifact e :
  Str.contains "/" e = false ->
  Str.split Posixpath.sep ("./build/libs/" +:+ e)
  = ["."; "build"; "libs"; e].
Proof.
  intros Hs. unfold Str.split, Posixpath.sep.
  change ("./build/libs/" +:+ e)
    with (String "." (String "/" (String "b" (String "u" (String "i"
         (String "l" (String "d" (String "/" (String "l" (String "i"
         (String "b" (String "s" (String "/" e))))))))))))).
  cbn [Str.split_from Ascii.eqb Bool.eqb String.append].
  now rewrite (split_from_no_sep _ _ _ Hs).
Qed.

(** The member name of an artifact keeps its directories. *)
Lemma arcname_artifact c r :
  c <> "."%char ->
  Str.contains "/" (String c r) = false ->
  Zipfile.arcname ("./build/libs/" +:+ String c r) false
  = Some ("build/libs/" +:+ String c r).
Proof.
  intros Hc Hs. apply Ascii.eqb_neq in Hc.
  unfold Zipfile.arcname, Posixpath.normpath.
  rewrite (split_artifact _ Hs).
  change (String.eqb ("./build/libs/" +:+ String c r) "") with false.
  change (Str.startswith "/" ("./build/libs/" +:+ String c r)) with false.
  cbv iota.
  assert (Hcomps : Posixpath.normpath_comps 0
                     ["."; "build"; "libs"; String c r] []
                   = ["build"; "libs"; String c r]).
  { cbn [Posixpath.normpath_comps String.eqb Ascii.eqb Bool.eqb orb andb
         negb app rev].
    rewrite Hc. reflexivity. }
  rewrite Hcomps. reflexivity.
Qed.

Example arcname_descriptors :
  map (fun p => Zipfile.arcname p false)
      (elasticbeanstalk_files_list initial_globals)
  = [Some "Dockerrun.aws.json"; Some "Dockerfile"; Some "env.yaml"].
Proof. reflexivity. Qed.

(** ** The zip loop *)

Lemma zip_write_all_spec w files :
  forall written entries,
    zip_write_all w files written = (entries, None) ->
    exists new, entries = written ++ new /\ Forall2 (zipped w) files new.
Proof.
  induction files as [|file files IH]; intros written entries; simpl.
  - intros [= <-]. exists []. now rewrite app_nil_r.
  - destruct (stat w file) as [f|] eqn:Hstat; [|discriminate].
    destruct (Zipfile.arcname file _) as [a|] eqn:Harc; [|discriminate].
    intros H. destruct (IH _ _ H) as (new & -> & Hnew).
    eexists (_ :: new). rewrite <- app_assoc. split; [reflexivity|].
    constructor; [|exact Hnew].
    exists f. simpl. auto.
Qed.

(** Whatever stops the loop, the members written are those of the files
    before the one that failed. *)
Lemma zip_write_all_prefix w files :
  forall written entries stop,
    zip_write_all w files written = (entries, stop) ->
    exists new,
      entries = written ++ new
      /\ Forall2 (zipped w) (firstn (length new) files) new.
Proof.
  induction files as [|file files IH]; intros written entries stop; simpl.
  - intros [= <- _]. exists []. rewrite app_nil_r. split; auto.
  - destruct (stat w file) as [f|] eqn:Hstat.
    + destruct (Zipfile.arcname file _) as [a|] eqn:Harc.
      * intros H. destruct (IH _ _ _ H) as (new & -> & Hnew).
        eexists (_ :: new). rewrite <- app_assoc. split; [reflexivity|].
        simpl. constructor; [|exact Hnew]. exists f. simpl. auto.
      * intros [= <- _]. exists []. rewrite app_nil_r. split; auto.
    + intros [= <- _]. exists []. rewrite app_nil_r. split; auto.
Qed.

(** ** Where archives are written *)

Lemma zip_free_archives t : Forall zip_free t -> archives t = [].
Proof.
  induction 1 as [|e t He _ IH]; [reflexivity|].
  destruct e; simpl in *; try contradiction; auto.
Qed.

Lemma archive_free_zip_free t : Forall archive_free t -> Forall zip_free t.
Proof.
  apply Forall_impl. intros [] H; simpl in *; auto.
Qed.

Lemma upload_and_register_zip_free w pkg g :
  Forall zip_free (trace_of (upload_and_register w pkg g)).
Proof.
  unfold upload_and_register. walk; try exact I.
  - apply upload_application_version_Forall; intros; exact I.
  - apply register_version_Forall; intros; exact I.
Qed.

Lemma await_and_decide_zip_free w fuel label g :
  Forall zip_free
    (trace_of ((cfg <- await_environment w fuel ;;
                create_or_update w label cfg) g)).
Proof.
  unfold create_or_update, print_response. walk; try exact I.
  apply await_environment_Forall; intros; exact I.
Qed.

(** The only archive of a run is the one packaging writes. *)
Lemma main_archives w fuel g :
  outcome_of (ensure_application w g) = Ok tt ->
  outcome_of (build_application w g) = Ok tt ->
  archives (trace_of (main w fuel g))
  = archives (trace_of (package_application w g)).
Proof.
  intros He Hb. unfold main. rewrite bind_trace, archives_app.
  rewrite register_new_version_phases. cbv zeta. rewrite He, Hb.
  rewrite archives_app.
  rewrite (zip_free_archives
             (archive_free_zip_free (ensure_application_archive_free w g))).
  cbn [app archives]. rewrite archives_app.
  rewrite (zip_free_archives
             (archive_free_zip_free (build_application_archive_free w g))).
  cbn [app archives]. rewrite archives_app.
  match goal with
  | |- (_ ++ archives ?t) ++ _ = _ => assert (H1 : archives t = [])
  end.
  { destruct (outcome_of (package_application w g)); try reflexivity.
    apply zip_free_archives, upload_and_register_zip_free. }
  rewrite H1, app_nil_r.
  match goal with
  | |- _ ++ archives ?t = _ =>
      assert (H2 : archives t = []); [|now rewrite H2, app_nil_r]
  end.
  destruct (outcome_of (register_new_version w g)); try reflexivity.
  apply zip_free_archives, await_and_decide_zip_free.
Qed.

(** ** C9: the archive of a run *)

(** C9. In a fresh process, when the first visible [*.jar] entry of the
    build output directory is [<stem>.jar] and the three descriptors and
    that artifact are files, packaging writes one archive,
    [<name>.zip], whose members are exactly the three descriptors and the
    artifact, in that order, each with the content of its file and under
    its relative path: [build/libs/<stem>.jar] keeps its directories.
    That archive is the only one a run writes. *)
Theorem archive_is_descriptors_and_artifact (w : World) :
  forall skipped stem more c1 c2 c3 c4,
    libs w = skipped ++ (stem +:+ ".jar") :: more ->
    Forall not_a_jar skipped ->
    is_a_jar (stem +:+ ".jar") ->
    Str.contains "/" stem = false ->
    stat w "./Dockerrun.aws.json" = Some (Zipfile.Regular c1) ->
    stat w "./Dockerfile" = Some (Zipfile.Regular c2) ->
    stat w "env.yaml" = Some (Zipfile.Regular c3) ->
    stat w ("./build/libs/" +:+ stem +:+ ".jar") = Some (Zipfile.Regular c4) ->
    let name := stem +:+ "-" +:+ stamp (Time.localtime (now w)) in
    let files :=
      ["./Dockerrun.aws.json"; "./Dockerfile"; "env.yaml";
       "./build/libs/" +:+ stem +:+ ".jar"] in
    let members :=
      [{| Zipfile.filename := "Dockerrun.aws.json"; Zipfile.data := c1 |};
       {| Zipfile.filename := "Dockerfile"; Zipfile.data := c2 |};
       {| Zipfile.filename := "env.yaml"; Zipfile.data := c3 |};
       {| Zipfile.filename := "build/libs/" +:+ stem +:+ ".jar";
          Zipfile.data := c4 |}] in
    package_application w initial_globals
    = ([GlobDir "./build/libs/*.jar"; ZipWritten (name +:+ ".zip") members;
        Print (MsgZipped name)],
       {| elasticbeanstalk_files_list := files |}, Ok name)
    /\ map (fun e => Some (Zipfile.filename e)) members
       = map (fun p => Zipfile.arcname p false) files
    /\ forall fuel,
         outcome_of (ensure_application w initial_globals) = Ok tt ->
         outcome_of (build_application w initial_globals) = Ok tt ->
         archives (trace_of (main w fuel initial_globals))
         = [(name +:+ ".zip", members)].
Proof.
  intros skipped stem more c1 c2 c3 c4 Hl Hs Hj Hslash H1 H2 H3 H4
    name files members.
  destruct (is_a_jar_stem Hj) as (c & r & Hc & Heq).
  assert (Hstem : stem = String c r) by (now apply append_inj_r in Heq).
  assert (Harc : Zipfile.arcname ("./build/libs/" +:+ stem +:+ ".jar") false
                 = Some ("build/libs/" +:+ stem +:+ ".jar")).
  { rewrite Hstem. change (String c r +:+ ".jar")
      with (String c (r +:+ ".jar")).
    apply arcname_artifact; [exact Hc|].
    change (String c (r +:+ ".jar")) with (String c r +:+ ".jar").
    rewrite contains_append, <- Hstem, Hslash. reflexivity. }
  pose proof (glob_first_match more Hs Hj) as Hglob. rewrite <- Hl in Hglob.
  pose proof (package_application_found w initial_globals Hglob) as Hp.
  cbv zeta in Hp.
  change (application_path +:+ "/" +:+ stem +:+ ".jar")
    with ("./build/libs/" +:+ stem +:+ ".jar") in Hp.
  assert (Hname : package_name w ("./build/libs/" +:+ stem +:+ ".jar")
                  = name).
  { unfold name. rewrite Hstem. rewrite Hstem in Hslash.
    now apply package_name_stem. }
  rewrite Hname in Hp.
  change (elasticbeanstalk_files_list initial_globals
          ++ ["./build/libs/" +:+ stem +:+ ".jar"]) with files in Hp.
  assert (Hzip : zip_write_all w files [] = (members, None)).
  { unfold files, members. cbn [zip_write_all].
    rewrite H1. change (Zipfile.arcname "./Dockerrun.aws.json" false)
      with (Some "Dockerrun.aws.json"). cbv iota.
    rewrite H2. change (Zipfile.arcname "./Dockerfile" false)
      with (Some "Dockerfile"). cbv iota.
    rewrite H3. change (Zipfile.arcname "env.yaml" false)
      with (Some "env.yaml"). cbv iota.
    rewrite H4, Harc. reflexivity. }
  rewrite Hzip in Hp.
  split; [exact Hp|]. split.
  - unfold files, members. cbn [map Zipfile.filename].
    change (Zipfile.arcname "./Dockerrun.aws.json" false)
      with (Some "Dockerrun.aws.json").
    change (Zipfile.arcname "./Dockerfile" false) with (Some "Dockerfile").
    change (Zipfile.arcname "env.yaml" false) with (Some "env.yaml").
    now rewrite Harc.
  - intros fuel He Hb. rewrite (main_archives w fuel _ He Hb), Hp.
    reflexivity.
Qed.

Lemma archive_is_descriptors_and_artifact_witness :
  archives (trace_of (main Sample.fresh 2 initial_globals))
  = [("shop-1.0" +:+ "-" +:+ stamp Sample.noon +:+ ".zip",
      [{| Zipfile.filename := "Dockerrun.aws.json"; Zipfile.data := "{}" |};
       {| Zipfile.filename := "Dockerfile";
          Zipfile.data := "FROM openjdk" |};
       {| Zipfile.filename := "env.yaml"; Zipfile.data := "env: prod" |};
       {| Zipfile.filename := "build/libs/" +:+ "shop-1.0" +:+ ".jar";
          Zipfile.data := "PK-jar" |}])].
Proof.
  exact (proj2 (proj2
    (@archive_is_descriptors_and_artifact Sample.fresh
       [] "shop-1.0" [] "{}" "FROM openjdk" "env: prod" "PK-jar"
       eq_refl (Forall_nil _) (conj eq_refl eq_refl) eq_refl
       eq_refl eq_refl eq_refl eq_refl))
    2 eq_refl eq_refl).
Defined.

(** ** C10: the module-level list grows with every call *)

Lemma package_application_files_list w g :
  elasticbeanstalk_files_list (globals_of (package_application w g))
  = elasticbeanstalk_files_list g
    ++ match located w with Some f => [f] | None => [] end.
Proof.
  unfold located.
  destruct (Glob.glob application_path ".jar" (libs w)) as [|f rest] eqn:H.
  - rewrite (package_application_empty w g H). simpl.
    now rewrite app_nil_r.
  - rewrite (package_application_found w g H). cbv zeta.
    destruct (zip_write_all w _ []) as [entries [e|]]; reflexivity.
Qed.

Lemma package_calls_files_list ws :
  forall g,
    elasticbeanstalk_files_list (package_calls ws g)
    = elasticbeanstalk_files_list g ++ artifacts ws.
Proof.
  induction ws as [|w ws IH]; intros g; simpl.
  - now rewrite app_nil_r.
  - rewrite IH, package_application_files_list.
    unfold artifacts. simpl. now rewrite <- app_assoc.
Qed.

Lemma artifacts_length ws :
  Forall (fun w => located w <> None) ws ->
  length (artifacts ws) = length ws.
Proof.
  unfold artifacts.
  induction 1 as [|w ws Hw _ IH]; simpl; [reflexivity|].
  destruct (located w); [|contradiction].
  simpl. now rewrite IH.
Qed.

(** C10. [package_application] appends the artifact it locates to the
    module-level list and never removes anything from it.  After calls in
    the worlds [ws] of one process the list is the initial one followed by
    the artifacts those calls located: the three descriptors and [n] paths
    after [n] calls that each located one.  The next call zips the whole
    list: its archive has a member for every artifact located so far,
    its own last. *)
Theorem packaging_grows_the_files_list (ws : list World) (g : globals) :
  elasticbeanstalk_files_list (package_calls ws g)
  = elasticbeanstalk_files_list g ++ artifacts ws
  /\ elasticbeanstalk_files_list (package_calls ws initial_globals)
     = ["./Dockerrun.aws.json"; "./Dockerfile"; "env.yaml"] ++ artifacts ws
  /\ (Forall (fun w => located w <> None) ws ->
      length (elasticbeanstalk_files_list (package_calls ws initial_globals))
      = 3 + length ws)
  /\ (forall w f,
        located w = Some f ->
        let files := elasticbeanstalk_files_list g ++ artifacts ws ++ [f] in
        let r := package_application w (package_calls ws g) in
        elasticbeanstalk_files_list (globals_of r) = files
        /\ exists entries,
             archives (trace_of r) = [(package_name w f +:+ ".zip", entries)]
             /\ Forall2 (zipped w) (firstn (length entries) files) entries
             /\ (forall name,
                   outcome_of r = Ok name -> Forall2 (zipped w) files entries)
             /\ (snd (zip_write_all w files []) = None ->
                 outcome_of r = Ok (package_name w f))).
Proof.
  split; [apply package_calls_files_list|].
  split; [apply package_calls_files_list|].
  split.
  - intros H. rewrite package_calls_files_list, length_app.
    now rewrite (artifacts_length H).
  - intros w f Hf files r.
    assert (Hglob : exists rest,
              Glob.glob application_path ".jar" (libs w) = f :: rest).
    { unfold located in Hf.
      destruct (Glob.glob application_path ".jar" (libs w)) as [|x rest];
        [discriminate|].
      exists rest. simpl in Hf. congruence. }
    destruct Hglob as [rest Hglob].
    pose proof (package_application_found w (package_calls ws g) Hglob)
      as Hp.
    cbv zeta in Hp. rewrite package_calls_files_list, <- app_assoc in Hp.
    fold files in Hp. fold r in Hp.
    destruct (zip_write_all w files []) as [entries stop] eqn:Hzip.
    destruct (zip_write_all_prefix _ _ _ Hzip) as (new & Hnew & Hpre).
    simpl in Hnew. subst new.
    destruct stop as [e|]; rewrite Hp; (split; [reflexivity|]);
      exists entries; (split; [reflexivity|]); (split; [exact Hpre|]);
      split.
    + intros name H. discriminate H.
    + intros H. discriminate H.
    + intros name _.
      destruct (zip_write_all_spec _ _ _ Hzip) as (new & Hn & H).
      simpl in Hn. subst new. exact H.
    + reflexivity.
Qed.

Lemma packaging_grows_the_files_list_witness :
  length (elasticbeanstalk_files_list
            (package_calls [Sample.fresh; Sample.fresh] initial_globals))
  = 3 + 2
  /\ elasticbeanstalk_files_list
       (globals_of (package_application Sample.fresh
                      (package_calls [Sample.fresh] initial_globals)))
     = ["./Dockerrun.aws.json"; "./Dockerfile"; "env.yaml";
        "./build/libs/shop-1.0.jar"; "./build/libs/shop-1.0.jar"]
  /\ outcome_of (package_application Sample.fresh
                   (package_calls [Sample.fresh] initial_globals))
     = Ok (package_name Sample.fresh "./build/libs/shop-1.0.jar").
Proof.
  split; [|split].
  - destruct (packaging_grows_the_files_list [Sample.fresh; Sample.fresh]
                initial_globals) as (_ & _ & H & _).
    apply H. repeat constructor; discriminate.
  - destruct (packaging_grows_the_files_list [Sample.fresh] initial_globals)
      as (_ & _ & _ & H).
    exact (proj1 (H Sample.fresh "./build/libs/shop-1.0.jar" eq_refl)).
  - destruct (packaging_grows_the_files_list [Sample.fresh] initial_globals)
      as (_ & _ & _ & H).
    destruct (proj2 (H Sample.fresh "./build/libs/shop-1.0.jar" eq_refl))
      as (entries & _ & _ & _ & H').
    exact (H' eq_refl).
Defined.

(** * Further properties of the script *)

(** ** A refused request ends the run *)

Lemma app_eq_middle A (x : A) t1 t2 a b :
  t1 ++ x :: t2 = a ++ b ->
  (exists l, a = t1 ++ x :: l /\ t2 = l ++ b)
  \/ (exists l, t1 = a ++ l /\ b = l ++ x :: t2).
Proof.
  intros H. apply app_eq_app in H. destruct H as (l & [[H1 H2]|[H1 H2]]).
  - right. exists l. auto.
  - destruct l as [|y l].
    + right. exists []. rewrite app_nil_r in *. simpl in H2. now subst.
    + simpl in H2. injection H2 as <- ->. left. exists l. auto.
Qed.

Lemma bind_stops A B (m : M A) (k : A -> M B) g :
  stops_at_refusal (m g) ->
  (forall a g', stops_at_refusal (k a g')) ->
  stops_at_refusal (bind m k g).
Proof.
  intros Hm Hk before rq e after. rewrite bind_trace, bind_outcome.
  intros H. symmetry in H. apply app_eq_middle in H.
  destruct H as [(l & H1 & H2)|(l & H1 & H2)].
  - destruct (Hm _ _ _ _ H1) as [-> Ho]. rewrite Ho in *.
    now subst after.
  - destruct (outcome_of (m g)) as [a|x|].
    + exact (Hk a (globals_of (m g)) l rq e after H2).
    + now destruct l.
    + now destruct l.
Qed.

Lemma quiet_stops A (r : trace * globals * outcome A) :
  Forall (fun e => is_refusal e = false) (trace_of r) ->
  stops_at_refusal r.
Proof.
  intros H before rq e after Ht. rewrite Ht in H.
  apply Forall_app in H. destruct H as [_ H]. inversion H. discriminate.
Qed.

Lemma emit_stops e g : is_refusal e = false -> stops_at_refusal (emit e g).
Proof. intros H. apply quiet_stops. repeat constructor. exact H. Qed.

Lemma call_stops A rq (inj : A -> response) (r : reply A) g :
  (forall a, is_refusal (Api rq (inj a)) = false) ->
  stops_at_refusal (call rq inj r g).
Proof.
  intros Hinj. destruct r as [a|x].
  - apply quiet_stops. repeat constructor. apply Hinj.
  - intros before rq' e after H.
    change (trace_of (call rq inj (Raises x) g))
      with ([] ++ Api rq (Failure x) :: []) in H.
    destruct before as [|y before].
    + simpl in H. injection H as <- <- <-. now split.
    + simpl in H. injection H as _ H. now destruct before.
Qed.

(** Walks through a piece of the script for [stops_at_refusal]. *)
Ltac walk_stops :=
  repeat
    match goal with
    | |- stops_at_refusal (bind _ _ _) => apply bind_stops; [|intros]
    | |- stops_at_refusal (emit _ _) => apply emit_stops; reflexivity
    | |- stops_at_refusal (print _ _) => apply emit_stops; reflexivity
    | |- stops_at_refusal (sleep _ _) => apply emit_stops; reflexivity
    | |- stops_at_refusal (call _ _ _ _) =>
        apply call_stops; intros; reflexivity
    | |- stops_at_refusal (ret _ _) => apply quiet_stops; constructor
    | |- stops_at_refusal (raise _ _) => apply quiet_stops; constructor
    | |- stops_at_refusal (still_polling _) => apply quiet_stops; constructor
    | |- stops_at_refusal (get_files_list _) => apply quiet_stops; constructor
    | |- stops_at_refusal (files_list_append _ _) =>
        apply quiet_stops; constructor
    | |- stops_at_refusal ((if ?b then _ else _) _) => destruct b
    | |- stops_at_refusal (match ?x with _ => _ end _) => destruct x
    | |- stops_at_refusal (match ?x with _ => _ end) => destruct x
    end.

Lemma wait_loop_stops w fuel :
  forall k cfg printed g, stops_at_refusal (wait_loop w fuel k cfg printed g).
Proof.
  induction fuel as [|fuel IH]; intros k cfg printed g; simpl;
    destruct (in_progress cfg); try (apply quiet_stops; constructor).
  unfold poll. walk_stops. apply IH.
Qed.

Lemma main_stops w fuel g : stops_at_refusal (main w fuel g).
Proof.
  unfold main, register_new_version, ensure_application, build_application,
    print_result, print_response, package_application, subscript0,
    with_ZipFile, upload_application_version, register_version,
    await_environment, poll, create_or_update, print_response.
  walk_stops. apply wait_loop_stops.
Qed.

(** X1. Whatever the services answer, the first refused request is the
    last event of the run: nothing is retried, nothing follows it, no
    request was refused before it, and the run ends with the exception of
    that refusal. *)
Theorem run_stops_at_first_refusal (w : World) (fuel : nat) (g : globals) :
  forall before rq e after,
    trace_of (main w fuel g) = before ++ Api rq (Failure e) :: after ->
    after = []
    /\ outcome_of (main w fuel g) = Raised e
    /\ Forall (fun ev => is_refusal ev = false) before.
Proof.
  intros before rq e after H.
  destruct (main_stops w fuel g _ _ _ _ H) as [Ha Ho].
  split; [exact Ha|]. split; [exact Ho|].
  apply Forall_forall. intros ev Hin.
  destruct ev as [| | | | | |rq' rs| ]; try reflexivity.
  destruct rs; try reflexivity.
  apply in_split in Hin. destruct Hin as (l1 & l2 & ->).
  rewrite <- app_assoc in H. simpl in H.
  destruct (main_stops w fuel g _ _ _ _ H) as [Hnil _]. now destruct l2.
Qed.

Lemma run_stops_at_first_refusal_witness :
  outcome_of (main Scenario.refused_put 3 initial_globals)
  = Raised ClientError
  /\ Forall (fun ev => is_refusal ev = false)
       (firstn 13 (trace_of (main Scenario.refused_put 3 initial_globals))).
Proof.
  exact (proj2 (@run_stops_at_first_refusal Scenario.refused_put 3
                  initial_globals
                  (firstn 13 (trace_of (main Scenario.refused_put 3
                                          initial_globals)))
                  (put_object "elasticbeanstalk-eu-west-1-123456789012"
                     "shop-1.0-20240309-120507.zip"
                     "shop-1.0-20240309-120507.zip")
                  ClientError [] eq_refl)).
Defined.

(** ** A file of the list is missing *)

Lemma zip_write_all_zipped w files :
  forall entries written,
    Forall2 (zipped w) files entries ->
    zip_write_all w files written = (written ++ entries, None).
Proof.
  induction files as [|file files IH]; intros entries written H;
    inversion H as [|? e ? rest (f & Hs & Ha & Hd) Hrest]; subst; simpl.
  - now rewrite app_nil_r.
  - rewrite Hs, Ha. rewrite (IH _ _ Hrest), <- app_assoc.
    destruct e as [name content]. simpl in *. now subst.
Qed.

Lemma zip_write_all_missing w present missing later :
  forall entries written,
    Forall2 (zipped w) present entries ->
    stat w missing = None ->
    zip_write_all w (present ++ missing :: later) written
    = (written ++ entries, Some FileNotFoundError).
Proof.
  induction present as [|file present IH]; intros entries written H Hm;
    inversion H as [|? e ? rest (f & Hs & Ha & Hd) Hrest]; subst; simpl.
  - now rewrite Hm, app_nil_r.
  - rewrite Hs, Ha. rewrite (IH _ _ Hrest Hm), <- app_assoc.
    destruct e as [name content]. simpl in *. now subst.
Qed.

(** X2. When a file of the list does not exist, packaging ends with
    [FileNotFoundError] after it has appended the artifact to the
    module-level list and has written the archive with the members that
    come before the missing file; the success message is not printed, and
    a run that got that far ends with that exception without any upload. *)
Theorem package_with_missing_file (w : World) (g : globals) :
  forall f rest present missing later entries,
    Glob.glob application_path ".jar" (libs w) = f :: rest ->
    elasticbeanstalk_files_list g ++ [f] = present ++ missing :: later ->
    Forall2 (zipped w) present entries ->
    stat w missing = None ->
    package_application w g
    = ([GlobDir "./build/libs/*.jar";
        ZipWritten (package_name w f +:+ ".zip") entries],
       {| elasticbeanstalk_files_list :=
            elasticbeanstalk_files_list g ++ [f] |},
       Raised FileNotFoundError)
    /\ forall fuel,
         outcome_of (ensure_application w g) = Ok tt ->
         outcome_of (build_application w g) = Ok tt ->
         outcome_of (main w fuel g) = Raised FileNotFoundError
         /\ filter is_put_object (requests (trace_of (main w fuel g))) = [].
Proof.
  intros f rest present missing later entries Hglob Hfiles Hpre Hmiss.
  assert (Hp : package_application w g
               = ([GlobDir "./build/libs/*.jar";
                   ZipWritten (package_name w f +:+ ".zip") entries],
                  {| elasticbeanstalk_files_list :=
                       elasticbeanstalk_files_list g ++ [f] |},
                  Raised FileNotFoundError)).
  { rewrite (package_application_found w g Hglob). cbv zeta.
    rewrite Hfiles at 1.
    now rewrite (@zip_write_all_missing w present missing later entries []
                   Hpre Hmiss). }
  split; [exact Hp|]. intros fuel He Hb.
  assert (Hr : outcome_of (register_new_version w g)
               = Raised FileNotFoundError).
  { now rewrite register_new_version_outcome, He, Hb, Hp. }
  destruct (main_outcome_raised w fuel g Hr) as [Ho Ht].
  split; [exact Ho|]. rewrite Ht, register_new_version_phases.
  cbv zeta. rewrite He, Hb, Hp.
  rewrite requests_app, filter_app.
  rewrite (proj2 (archive_free_archives
                    (ensure_application_archive_free w g))).
  change (trace_of ([GlobDir "./build/libs/*.jar";
                     ZipWritten (package_name w f +:+ ".zip") entries],
                    {| elasticbeanstalk_files_list :=
                         elasticbeanstalk_files_list g ++ [f] |},
                    @Raised string FileNotFoundError))
    with [GlobDir "./build/libs/*.jar";
          ZipWritten (package_name w f +:+ ".zip") entries].
  cbn [app requests]. rewrite requests_app, filter_app.
  rewrite (proj2 (archive_free_archives
                    (build_application_archive_free w g))).
  reflexivity.
Qed.

Lemma package_with_missing_file_witness :
  package_application Broken.no_env_yaml initial_globals
  = ([GlobDir "./build/libs/*.jar";
      ZipWritten
        (package_name Broken.no_env_yaml "./build/libs/shop-1.0.jar"
         +:+ ".zip")
        [{| Zipfile.filename := "Dockerrun.aws.json"; Zipfile.data := "{}" |};
         {| Zipfile.filename := "Dockerfile";
            Zipfile.data := "FROM openjdk" |}]],
     {| elasticbeanstalk_files_list :=
          elasticbeanstalk_files_list initial_globals
          ++ ["./build/libs/shop-1.0.jar"] |},
     Raised FileNotFoundError)
  /\ outcome_of (main Broken.no_env_yaml 2 initial_globals)
     = Raised FileNotFoundError.
Proof.
  assert (Hpre : Forall2 (zipped Broken.no_env_yaml)
            ["./Dockerrun.aws.json"; "./Dockerfile"]
            [{| Zipfile.filename := "Dockerrun.aws.json";
                Zipfile.data := "{}" |};
             {| Zipfile.filename := "Dockerfile";
                Zipfile.data := "FROM openjdk" |}]).
  { constructor; [|constructor; [|constructor]].
    - exists (Zipfile.Regular "{}"). repeat split; reflexivity.
    - exists (Zipfile.Regular "FROM openjdk"). repeat split; reflexivity. }
  destruct (@package_with_missing_file Broken.no_env_yaml initial_globals
              "./build/libs/shop-1.0.jar" []
              ["./Dockerrun.aws.json"; "./Dockerfile"] "env.yaml"
              ["./build/libs/shop-1.0.jar"] _ eq_refl eq_refl Hpre eq_refl)
    as [Hp Hm].
  split; [exact Hp|]. exact (proj1 (Hm 2 eq_refl eq_refl)).
Defined.

(** ** The version registered is the package uploaded *)

Lemma upload_and_register_trace w pkg g :
  let u := upload_application_version w pkg g in
  trace_of (upload_and_register w pkg g)
  = Print MsgUpload
    :: trace_of u
    ++ match outcome_of u with
       | Ok bucket => trace_of (register_version w pkg bucket (globals_of u))
       | _ => []
       end.
Proof.
  cbv zeta. unfold upload_and_register. rewrite bind_trace.
  change (outcome_of (print MsgUpload g)) with (Ok (A:=unit) tt).
  change (globals_of (print MsgUpload g)) with g.
  change (trace_of (print MsgUpload g)) with [Print MsgUpload].
  cbv iota. rewrite bind_trace. cbn [app]. f_equal. f_equal.
  destruct (outcome_of (upload_application_version w pkg g)); try reflexivity.
  rewrite bind_trace.
  destruct (outcome_of (register_version w pkg a _)); cbn [trace_of ret fst];
    now rewrite app_nil_r.
Qed.

Lemma register_version_requests w pkg bucket g :
  requests (trace_of (register_version w pkg bucket g))
  = [create_application_version (application_name (arguments w)) pkg bucket
       (pkg +:+ ".zip") false true].
Proof.
  unfold register_version, print_response, call, print, sleep, bind, emit,
    ret, raise, trace_of.
  destruct (eb_create_application_version w); reflexivity.
Qed.











(** ** Names and extensions *)

Lemma rfind_present c s : Str.contains c s = true -> (0 <= Str.rfind c s)%Z.
Proof.
  induction s as [|a s IH]; simpl; [discriminate|].
  destruct (0 <=? Str.rfind c s)%Z eqn:H.
  - apply Z.leb_le in H. lia.
  - destruct (Ascii.eqb a c); simpl; [lia|].
    intros Hs. apply IH in Hs. apply Z.leb_gt in H. lia.
Qed.

(** No [c] after the last [c]. *)
Lemma contains_drop c s :
  forall n,
    Str.contains c (Str.drop n s) = true -> (Z.of_nat n <= Str.rfind c s)%Z.
Proof.
  induction s as [|a s IH]; intros [|n]; simpl; try discriminate.
  - apply (rfind_present c (String a s)).
  - intros H. apply IH in H.
    destruct (0 <=? Str.rfind c s)%Z eqn:Hr; [lia|].
    apply Z.leb_gt in Hr. lia.
Qed.

Lemma contains_take c s :
  forall n, Str.contains c (Str.take n s) = true -> Str.contains c s = true.
Proof.
  induction s as [|a s IH]; intros [|n]; simpl; try discriminate.
  intros H. apply orb_true_iff in H. apply orb_true_iff.
  destruct H as [H|H]; [now left|right; now apply (IH n)].
Qed.

(** At the index [rfind] gives there is a [c]. *)
Lemma drop_rfind c s :
  (0 <= Str.rfind c s)%Z ->
  exists r, Str.drop (Z.to_nat (Str.rfind c s)) s = String c r.
Proof.
  induction s as [|a s IH]; simpl; [lia|].
  destruct (0 <=? Str.rfind c s)%Z eqn:H.
  - apply Z.leb_le in H. intros _. destruct (IH H) as [r Hr].
    exists r. rewrite Z2Nat.inj_add by lia.
    rewrite Nat.add_comm. simpl. exact Hr.
  - destruct (Ascii.eqb_spec a c) as [->|Hne]; [|lia].
    intros _. now exists s.
Qed.

(** [s[:n]] has [n] characters when [s[n:]] is not empty. *)
Lemma length_take s :
  forall n c r,
    Str.drop n s = String c r -> String.length (Str.take n s) = n.
Proof.
  induction s as [|x s IH]; intros [|n] c r H; simpl in *;
    try reflexivity; try discriminate.
  f_equal. exact (IH n c r H).
Qed.

(** X5. [splitext] cuts a path in two without losing anything: root and
    extension put together give the path back, and the extension is empty
    or starts with a dot and has no separator in it. *)
Theorem splitext_round_trip (p : string) :
  fst (Posixpath.splitext p) +:+ snd (Posixpath.splitext p) = p
  /\ (snd (Posixpath.splitext p) = ""
      \/ exists r, snd (Posixpath.splitext p) = String "." r
                   /\ Str.contains "/" r = false).
Proof.
  unfold Posixpath.splitext, Posixpath.sep, Posixpath.extsep.
  destruct (Str.rfind "/" p <? Str.rfind "." p)%Z eqn:Hlt;
    [|simpl; split; [apply append_nil_r|now left]].
  destruct (Posixpath.splitext_scan p _ _);
    [|simpl; split; [apply append_nil_r|now left]].
  simpl. split; [apply take_drop|]. right.
  apply Z.ltb_lt in Hlt. pose proof (rfind_lower "/" p) as Hlow.
  destruct (@drop_rfind "." p ltac:(lia)) as [r Hr].
  exists r. split; [exact Hr|].
  destruct (Str.contains "/" r) eqn:Hc; [exfalso|reflexivity].
  assert (H : Str.contains "/"
                (Str.drop (Z.to_nat (Str.rfind "." p)) p) = true)
    by (rewrite Hr; simpl; exact Hc).
  apply contains_drop in H. lia.
Qed.

Lemma basename_no_sep p : Str.contains "/" (Posixpath.basename p) = false.
Proof.
  unfold Posixpath.basename, Posixpath.sep.
  pose proof (rfind_lower "/" p) as Hlow.
  destruct (Str.contains "/" (Str.drop _ p)) eqn:Hc; [|reflexivity].
  apply contains_drop in Hc. lia.
Qed.

Lemma take_all s : Str.take (String.length s) s = s.
Proof.
  rewrite <- (append_nil_r s) at 2. apply take_append.
Qed.

(** The root [splitext] returns is the beginning of the path. *)
Lemma splitext_root_prefix p :
  exists n, fst (Posixpath.splitext p) = Str.take n p.
Proof.
  unfold Posixpath.splitext.
  destruct (_ <? _)%Z; [|exists (String.length p); now rewrite take_all].
  destruct (Posixpath.splitext_scan p _ _);
    [|exists (String.length p); now rewrite take_all].
  now eexists.
Qed.

(** X6. [basename] is the part of a path after its last separator: it has
    no separator in it, and the path is a directory part, empty or ending
    in a separator, followed by it. *)
Theorem basename_is_last_component (p : string) :
  Str.contains "/" (Posixpath.basename p) = false
  /\ exists dir,
       p = dir +:+ Posixpath.basename p
       /\ (dir = "" \/ Str.endswith "/" dir = true).
Proof.
  split; [apply basename_no_sep|].
  unfold Posixpath.basename, Posixpath.sep.
  pose proof (rfind_lower "/" p) as Hlow.
  - exists (Str.take (Z.to_nat (Str.rfind "/" p + 1)) p).
    split; [symmetry; apply take_drop|].
    destruct (Z.eq_dec (Str.rfind "/" p) (-1)) as [->|Hne]; [now left|].
    right. destruct (@drop_rfind "/" p ltac:(lia)) as [r Hr].
    pose proof (take_drop (Z.to_nat (Str.rfind "/" p)) p) as Hp.
    rewrite Hr in Hp.
    set (a := Str.take (Z.to_nat (Str.rfind "/" p)) p) in *.
    assert (Hlen : String.length a = Z.to_nat (Str.rfind "/" p))
      by (apply (length_take _ _ Hr)).
    replace (Z.to_nat (Str.rfind "/" p + 1))
      with (String.length (a +:+ "/"))
      by (rewrite length_append, Hlen; simpl; lia).
    clearbody a. rewrite <- Hp.
    replace (a +:+ String "/" r) with ((a +:+ "/") +:+ r)
      by (now rewrite append_assoc).
    rewrite take_append. unfold Str.endswith.
    rewrite length_append. simpl String.length.
    replace (String.length a + 1 - 1) with (String.length a) by lia.
    rewrite drop_append.
    replace (1 <=? String.length a + 1)%nat with true
      by (symmetry; apply Nat.leb_le; lia).
    reflexivity.
Qed.

(** ** Member names are relative *)

Lemma strip_seps_head s a :
  Zipfile.strip_seps s = Some a ->
  exists c r, a = String c r /\ c <> "/"%char.
Proof.
  induction s as [|x s IH]; simpl; [discriminate|].
  unfold Posixpath.sep.
  destruct (Ascii.eqb_spec x "/") as [->|Hne]; [exact IH|].
  intros [= <-]. now exists x, s.
Qed.

(** X4. Whatever path is given to [zip.write], the member it adds has a
    name that is not empty and does not start with a separator: nothing is
    stored under an absolute path. *)
Theorem member_names_are_relative (path : string) (isdir : bool)
    (name : string) :
  Zipfile.arcname path isdir = Some name ->
  name <> "" /\ Str.startswith "/" name = false.
Proof.
  unfold Zipfile.arcname.
  destruct (Zipfile.strip_seps (Posixpath.normpath path)) as [a|] eqn:H;
    [|discriminate].
  destruct (strip_seps_head _ H) as (c & r & -> & Hc).
  intros [= <-].
  assert (Hs : forall r', Str.startswith "/" (String c r') = false).
  { intros r'. unfold Str.startswith. cbn [String.prefix].
    destruct (ascii_dec "/" c) as [Heq|_]; [now subst c|reflexivity]. }
  destruct isdir; simpl; split; try discriminate; apply Hs.
Qed.

Lemma member_names_are_relative_witness :
  "etc/passwd" <> "" /\ Str.startswith "/" "etc/passwd" = false.
Proof.
  exact (@member_names_are_relative "//etc/./passwd" false "etc/passwd"
           eq_refl).
Defined.

(** ** The package name has no separator *)

Lemma digit_not_sep d : d < 10 -> Ascii.eqb (Time.digit d) "/" = false.
Proof.
  intros H.
  do 10 (destruct d as [|d]; [reflexivity|]). lia.
Qed.

Lemma decimal_from_no_sep fuel :
  forall n acc,
    Str.contains "/" (Time.decimal_from fuel n acc) = Str.contains "/" acc.
Proof.
  induction fuel as [|fuel IH]; intros n acc; cbn [Time.decimal_from];
    [reflexivity|].
  assert (Hd : Str.contains "/" (String (Time.digit (n mod 10)) acc)
               = Str.contains "/" acc).
  { cbn [Str.contains]. rewrite digit_not_sep; [reflexivity|].
    apply Nat.mod_upper_bound. discriminate. }
  destruct (n <? 10)%nat; [exact Hd|]. now rewrite IH.
Qed.

Lemma pad2_no_sep n : Str.contains "/" (Time.pad2 n) = false.
Proof.
  unfold Time.pad2, Time.decimal.
  destruct (n <? 10)%nat; cbn [Str.contains];
    rewrite ?decimal_from_no_sep; reflexivity.
Qed.

Lemma stamp_no_sep t : Str.contains "/" (stamp t) = false.
Proof.
  unfold stamp, Time.decimal.
  rewrite !contains_append, !pad2_no_sep, decimal_from_no_sep.
  reflexivity.
Qed.

(** X7. The name packaging returns never has a path separator in it,
    whatever the build left in the directory and whatever the clock says:
    the archive [<name>.zip] is created in the working directory itself
    and the S3 key has no prefix. *)
Theorem package_name_has_no_separator (w : World) (g : globals)
    (name : string) :
  outcome_of (package_application w g) = Ok name ->
  Str.contains "/" name = false
  /\ Str.contains "/" (name +:+ ".zip") = false.
Proof.
  destruct (Glob.glob application_path ".jar" (libs w)) as [|f rest] eqn:H.
  - now rewrite (package_application_empty w g H).
  - rewrite (package_application_found w g H). cbv zeta.
    destruct (zip_write_all w _ []) as [entries [x|]]; [discriminate|].
    intros [= <-].
    assert (Hn : Str.contains "/" (package_name w f) = false).
    { unfold package_name.
      rewrite strftime_stamp, !contains_append, stamp_no_sep.
      pose proof (basename_no_sep f) as Hb.
      destruct (Str.contains "/"
                  (fst (Posixpath.splitext (Posixpath.basename f))))
        eqn:Hc; [exfalso|reflexivity].
      destruct (splitext_root_prefix (Posixpath.basename f)) as [n Hroot].
      rewrite Hroot in Hc. apply contains_take in Hc. congruence. }
    split; [exact Hn|]. now rewrite contains_append, Hn.
Qed.

Lemma package_name_has_no_separator_witness :
  Str.contains "/" "shop-1.0-20240309-120507" = false
  /\ Str.contains "/" ("shop-1.0-20240309-120507" +:+ ".zip") = false.
Proof.
  exact (@package_name_has_no_separator Sample.fresh initial_globals
           "shop-1.0-20240309-120507" eq_refl).
Defined.

(** ** The session *)

Lemma existsb_eqb_In x l : existsb (String.eqb x) l = true <-> In x l.
Proof.
  rewrite existsb_exists. split.
  - intros (y & Hy & Heq). apply String.eqb_eq in Heq. now subst.
  - intros H. exists x. split; [exact H|apply String.eqb_refl].
Qed.

Lemma ask_for_keys_prompts lines :
  exists t r, Session.ask_for_keys lines = (Session.Prompted
                                              Session.access_key_prompt :: t,
                                            r).
Proof.
  destruct lines as [|a [|b [|c l]]]; simpl; eauto.
Qed.

(** X8. [create_session] asks for keys exactly when the configuration
    cannot give a session: the profile is not ['default'] and is not among
    the profiles of the machine, or it is ['default'] and there are no
    credentials.  Otherwise it prints nothing and asks nothing, and
    returns the session of the named profile, without looking at the
    credentials, or the ambient session for ['default']. *)
Theorem create_session_asks_iff_not_configured (profile : string)
    (b : Session.Boto) :
  (existsb Session.is_prompt (fst (Session.create_session profile b)) = true
   <-> ~ Session.configured profile b)
  /\ (Session.configured profile b ->
      Session.create_session profile b
      = ([], Session.Created
               (if String.eqb profile "default" then Session.Ambient
                else Session.Named profile))).
Proof.
  unfold Session.create_session, Session.configured.
  pose proof (existsb_eqb_In profile (Session.available_profiles b)) as Hin.
  destruct (String.eqb_spec profile "default") as [Hd|Hd]; simpl.
  - destruct (Session.has_credentials b) eqn:Hc; simpl.
    + split; [|reflexivity]. split; [discriminate|].
      intros H. exfalso. apply H. right. now split.
    + destruct (ask_for_keys_prompts (Session.stdin b)) as (t & r & ->).
      simpl. split.
      * split; [|reflexivity]. intros _ [[H _]|[_ H]];
          [contradiction|discriminate].
      * intros [[H _]|[_ H]]; [contradiction|discriminate].
  - destruct (existsb (String.eqb profile) (Session.available_profiles b))
      eqn:He; simpl.
    + split; [|reflexivity]. split; [discriminate|].
      intros H. exfalso. apply H. left. split; [exact Hd|now apply Hin].
    + destruct (ask_for_keys_prompts (Session.stdin b)) as (t & r & ->).
      simpl. split.
      * split; [|reflexivity]. intros _ [[_ H]|[H _]];
          [apply Hin in H; discriminate|contradiction].
      * intros [[_ H]|[H _]]; [apply Hin in H; discriminate|contradiction].
Qed.

Lemma create_session_asks_iff_not_configured_witness :
  Session.create_session "staging"
    {| Session.available_profiles := ["default"; "staging"];
       Session.has_credentials := false; Session.stdin := [] |}
  = ([], Session.Created (Session.Named "staging")).
Proof.
  apply (proj2 (create_session_asks_iff_not_configured "staging"
                  {| Session.available_profiles := ["default"; "staging"];
                     Session.has_credentials := false;
                     Session.stdin := [] |})).
  left. split; [discriminate|]. right. left. reflexivity.
Defined.

Lemma create_session_not_configured profile b :
  ~ Session.configured profile b ->
  exists notice,
    Session.create_session profile b
    = (Session.Printed notice :: fst (Session.ask_for_keys (Session.stdin b)),
       snd (Session.ask_for_keys (Session.stdin b))).
Proof.
  unfold Session.create_session, Session.configured. intros Hn.
  pose proof (existsb_eqb_In profile (Session.available_profiles b)) as Hin.
  destruct (String.eqb_spec profile "default") as [Hd|Hd]; simpl.
  - destruct (Session.has_credentials b) eqn:Hc; simpl.
    + exfalso. apply Hn. right. now split.
    + destruct (Session.ask_for_keys (Session.stdin b)) as [t r]. eauto.
  - destruct (existsb (String.eqb profile) (Session.available_profiles b))
      eqn:He; simpl.
    + exfalso. apply Hn. left. split; [exact Hd|now apply Hin].
    + destruct (Session.ask_for_keys (Session.stdin b)) as [t r]. eauto.
Qed.

(** X9. When [create_session] has to ask, it prints one notice and then
    asks for the access key, the secret key and the region, in that order:
    with three lines on standard input the session is made of exactly
    those three answers and further lines are left unread; with fewer it
    ends with [EOFError] at the first question that finds no line. *)
Theorem create_session_reads_three_answers (profile : string)
    (b : Session.Boto) :
  ~ Session.configured profile b ->
  let asked := filter Session.is_prompt
                 (fst (Session.create_session profile b)) in
  let questions := [Session.Prompted Session.access_key_prompt;
                    Session.Prompted Session.secret_access_key_prompt;
                    Session.Prompted Session.region_prompt] in
  length (filter (fun c => negb (Session.is_prompt c))
                 (fst (Session.create_session profile b))) = 1
  /\ (forall access secret region more,
        Session.stdin b = access :: secret :: region :: more ->
        asked = questions
        /\ snd (Session.create_session profile b)
           = Session.Created (Session.Keys access secret region))
  /\ (length (Session.stdin b) < 3 ->
      asked = firstn (S (length (Session.stdin b))) questions
      /\ snd (Session.create_session profile b) = Session.EOFError).
Proof.
  intros Hn asked questions.
  destruct (create_session_not_configured Hn) as (notice & Heq).
  unfold asked, questions. rewrite Heq.
  destruct (Session.stdin b) as [|a [|s [|r l]]]; simpl;
    (split; [reflexivity|]); split; intros; try discriminate;
    try (simpl in *; lia); auto.
  match goal with
  | H : _ :: _ :: _ :: _ = _ |- _ => injection H as <- <- <- <-
  end.
  auto.
Qed.

Lemma create_session_reads_three_answers_witness :
  snd (Session.create_session "default"
         {| Session.available_profiles := [];
            Session.has_credentials := false;
            Session.stdin := ["AKIA"; "s3cr3t"; "eu-west-1"; "left"] |})
  = Session.Created (Session.Keys "AKIA" "s3cr3t" "eu-west-1")
  /\ snd (Session.create_session "nowhere"
            {| Session.available_profiles := ["default"];
               Session.has_credentials := true;
               Session.stdin := ["AKIA"] |})
     = Session.EOFError.
Proof.
  split.
  - refine (proj2 (proj1 (proj2
      (@create_session_reads_three_answers "default"
         {| Session.available_profiles := [];
            Session.has_credentials := false;
            Session.stdin := ["AKIA"; "s3cr3t"; "eu-west-1"; "left"] |} _))
      "AKIA" "s3cr3t" "eu-west-1" ["left"] eq_refl)).
    intros [[H _]|[_ H]]; [now apply H|discriminate H].
  - refine (proj2 (proj2 (proj2
      (@create_session_reads_three_answers "nowhere"
         {| Session.available_profiles := ["default"];
            Session.has_credentials := true;
            Session.stdin := ["AKIA"] |} _)) _)).
    + intros [[_ [H|[]]]|[H _]]; discriminate H.
    + simpl. lia.
Defined.

(** ** The pauses of a run *)





Lemma upload_and_register_outcome w pkg g :
  let u := upload_application_version w pkg g in
  outcome_of (upload_and_register w pkg g)
  = match outcome_of u with
    | Ok bucket =>
        match outcome_of (register_version w pkg bucket (globals_of u)) with
        | Ok _ => Ok pkg
        | Raised x => Raised x
        | Polling => Polling
        end
    | Raised x => Raised x
    | Polling => Polling
    end.
Proof.
  cbv zeta. unfold upload_and_register. rewrite bind_outcome.
  change (outcome_of (print MsgUpload g)) with (Ok (A:=unit) tt).
  change (globals_of (print MsgUpload g)) with g.
  cbv iota. rewrite bind_outcome.
  destruct (outcome_of (upload_application_version w pkg g)); try reflexivity.
  rewrite bind_outcome.
  destruct (outcome_of (register_version w pkg a _)); reflexivity.
Qed.






(** ** What a run does on the machine *)








(** ** The requests of a run that goes through *)

Lemma requests_turn w printed rs t :
  requests (turn_prefix w printed ++ Api (poll_request w) rs :: t)
  = poll_request w :: requests t.
Proof. destruct printed; reflexivity. Qed.

Lemma wait_loop_requests w final :
  forall n k fuel cfg printed g,
    in_progress cfg = true ->
    (forall i, i < n ->
       exists c, eb_environments w (S k + i) = Returns c
                 /\ in_progress c = true) ->
    eb_environments w (S k + n) = Returns final ->
    in_progress final = false ->
    S n <= fuel ->
    requests (trace_of (wait_loop w fuel k cfg printed g))
    = repeat (poll_request w) (S n).
Proof.
  induction n as [|n IH]; intros k fuel cfg printed g Hcfg Hbusy Hfinal Hq Hfuel;
    (destruct fuel as [|fuel]; [lia|]);
    rewrite wait_loop_step by assumption.
  - rewrite Nat.add_0_r in Hfinal. rewrite Hfinal.
    rewrite wait_loop_done by assumption.
    unfold trace_of. simpl fst. now rewrite requests_turn.
  - destruct (Hbusy 0) as (c & Hc & Hcb); [lia|].
    rewrite Nat.add_0_r in Hc. rewrite Hc.
    specialize (IH (S k) fuel c true g Hcb).
    destruct (wait_loop w fuel (S k) c true g) as [[t g'] o].
    unfold trace_of in *. simpl fst in *.
    rewrite requests_turn.
    assert (Hbusy' : forall i, i < n ->
              exists c', eb_environments w (S (S k) + i) = Returns c'
                         /\ in_progress c' = true).
    { intros i Hi. destruct (Hbusy (S i)) as (c' & Hc' & Hcb'); [lia|].
      exists c'. split; [|exact Hcb'].
      now replace (S (S k) + i) with (S k + S i) by lia. }
    assert (Hfinal' : eb_environments w (S (S k) + n) = Returns final).
    { now replace (S (S k) + n) with (S k + S n) by lia. }
    rewrite (IH Hbusy' Hfinal' Hq ltac:(lia)). reflexivity.
Qed.

(** The wait when the first quiescent poll is poll [n]. *)
Lemma await_environment_runs w fuel g n final :
  (forall k, k < n ->
     exists cfg, eb_environments w k = Returns cfg
                 /\ in_progress cfg = true) ->
  eb_environments w n = Returns final ->
  in_progress final = false ->
  n <= fuel ->
  outcome_of (await_environment w fuel g) = Ok final
  /\ requests (trace_of (await_environment w fuel g))
     = repeat (poll_request w) (S n).
Proof.
  intros Hbusy Hfinal Hq Hfuel. rewrite await_environment_eq.
  destruct n as [|n].
  - rewrite Hfinal, wait_loop_done by assumption. now split.
  - destruct (Hbusy 0) as (cfg0 & Hc0 & Hb0); [lia|]. rewrite Hc0.
    assert (Hbusy' : forall i, i < n ->
              exists c, eb_environments w (1 + i) = Returns c
                        /\ in_progress c = true).
    { intros i Hi. apply Hbusy. lia. }
    destruct (@wait_loop_runs w final n 0 fuel cfg0 false g Hb0 Hbusy'
                Hfinal Hq Hfuel) as (Ho & _ & _).
    pose proof (@wait_loop_requests w final n 0 fuel cfg0 false g Hb0 Hbusy'
                  Hfinal Hq Hfuel) as Hr.
    destruct (wait_loop w fuel 0 cfg0 false g) as [[t g'] o].
    unfold outcome_of, trace_of in *. simpl fst in *. simpl snd in *.
    split; [exact Ho|].
    change (requests (Api (poll_request w) (Environments cfg0) :: t))
      with (poll_request w :: requests t).
    now rewrite Hr.
Qed.

Lemma create_or_update_requests w label cfg g :
  requests (trace_of (create_or_update w label cfg g)) = [decision w label cfg]
  /\ outcome_of (create_or_update w label cfg g)
     = match (if absent_or_terminated cfg then eb_create_environment w
              else eb_update_environment w) with
       | Returns _ => Ok tt
       | Raises x => Raised x
       end.
Proof.
  unfold create_or_update, decision, print_response, call, print, bind,
    emit, ret, raise, trace_of, outcome_of.
  destruct (absent_or_terminated cfg).
  - destruct (eb_create_environment w); split; reflexivity.
  - destruct (eb_update_environment w); split; reflexivity.
Qed.

Lemma register_version_returns w pkg bucket g text :
  eb_create_application_version w = Returns text ->
  outcome_of (register_version w pkg bucket g) = Ok tt.
Proof.
  intros H.
  unfold register_version, print_response, call, print, sleep, bind, emit,
    ret, raise, outcome_of.
  now rewrite H.
Qed.

Lemma no_request_nil t :
  Forall (fun e => match e with Api _ _ => False | _ => True end) t ->
  requests t = [].
Proof.
  induction 1 as [|e t He _ IH]; [reflexivity|].
  destruct e; simpl in *; auto. contradiction.
Qed.

(** X12. A run in which every step up to the wait succeeds, and in which
    the environment is in progress for the first [n] polls and quiescent
    at the next, sends exactly these requests in this order: those of the
    application step, those of the upload, one create-application-version
    for the package in the bucket of the upload, [n + 1] polls of the
    environment, and the one create-environment or update-environment of
    the decision; it ends well exactly when that last request is
    accepted. *)
Theorem requests_of_a_complete_run (w : World) (fuel : nat) (g : globals) :
  forall label bucket text n final,
    outcome_of (ensure_application w g) = Ok tt ->
    outcome_of (build_application w g) = Ok tt ->
    outcome_of (package_application w g) = Ok label ->
    outcome_of (upload_application_version w label
                  (globals_of (package_application w g))) = Ok bucket ->
    eb_create_application_version w = Returns text ->
    (forall k, k < n ->
       exists cfg, eb_environments w k = Returns cfg
                   /\ in_progress cfg = true) ->
    eb_environments w n = Returns final ->
    in_progress final = false ->
    n <= fuel ->
    requests (trace_of (main w fuel g))
    = requests (trace_of (ensure_application w g))
      ++ requests (trace_of (upload_application_version w label
                               (globals_of (package_application w g))))
      ++ [create_application_version (application_name (arguments w)) label
            bucket (label +:+ ".zip") false true]
      ++ repeat (poll_request w) (S n)
      ++ [decision w label final]
    /\ outcome_of (main w fuel g)
       = match (if absent_or_terminated final then eb_create_environment w
                else eb_update_environment w) with
         | Returns _ => Ok tt
         | Raises x => Raised x
         end.
Proof.
  intros label bucket text n final He Hb Hp Hu Hv Hbusy Hfinal Hq Hfuel.
  assert (Hreg : forall g', outcome_of (register_version w label bucket g')
                            = Ok tt)
    by (intros g'; exact (register_version_returns w label bucket g' Hv)).
  assert (Hr : outcome_of (register_new_version w g) = Ok label).
  { rewrite register_new_version_outcome, He, Hb, Hp.
    rewrite upload_and_register_outcome. cbv zeta. now rewrite Hu, Hreg. }
  assert (Ha : forall g',
             outcome_of (await_environment w fuel g') = Ok final
             /\ requests (trace_of (await_environment w fuel g'))
                = repeat (poll_request w) (S n)).
  { intros g'. now apply await_environment_runs. }
  split.
  - rewrite main_phases. cbv zeta. rewrite Hr.
    rewrite (proj1 (Ha _)).
    rewrite !requests_app, (proj2 (Ha _)),
      (proj1 (create_or_update_requests _ _ _ _)).
    rewrite register_new_version_phases. cbv zeta. rewrite He, Hb, Hp.
    rewrite upload_and_register_trace. cbv zeta. rewrite Hu.
    rewrite !requests_app. cbn [requests app].
    rewrite !requests_app. cbn [requests app].
    rewrite requests_app. cbn [requests].
    rewrite requests_app, register_version_requests.
    rewrite (no_request_nil
               (build_application_Forall w _
                  (fun _ _ => I) (fun _ => I) I (fun _ => I) g)).
    rewrite (no_request_nil
               (package_application_Forall w _
                  (fun _ _ => I) (fun _ => I) (fun _ _ => I) g)).
    cbn [app]. now rewrite <- !app_assoc.
  - unfold main. rewrite bind_outcome, Hr, bind_outcome.
    rewrite (proj1 (Ha _)).
    apply (proj2 (create_or_update_requests _ _ _ _)).
Qed.

Lemma requests_of_a_complete_run_witness :
  requests (trace_of (main (Sample.busy_then 2 "Ready") 4 initial_globals))
  = [describe_applications ["shop"]]
    ++ [get_caller_identity; buckets_all;
        put_object "elasticbeanstalk-eu-west-1-123456789012"
          "shop-1.0-20240309-120507.zip" "shop-1.0-20240309-120507.zip"]
    ++ [create_application_version "shop" "shop-1.0-20240309-120507"
          "elasticbeanstalk-eu-west-1-123456789012"
          "shop-1.0-20240309-120507.zip" false true]
    ++ repeat (describe_environments "shop" ["shop-prod"]) 3
    ++ [update_environment "shop" "shop-prod" "shop-1.0-20240309-120507"].
Proof.
  refine (proj1 (@requests_of_a_complete_run (Sample.busy_then 2 "Ready") 4
                   initial_globals "shop-1.0-20240309-120507"
                   "elasticbeanstalk-eu-west-1-123456789012" "{version}" 2
                   [Sample.env "Ready"] eq_refl eq_refl eq_refl eq_refl
                   eq_refl _ eq_refl eq_refl _)).
  - intros k Hk. exists [Sample.env "Updating"].
    destruct k as [|[|k]]; [now split|now split|lia].
  - lia.
Defined.

(** ** Labels and seconds *)








(** ** What [glob] selects *)

Lemma jar_or_not entry : is_a_jar entry \/ not_a_jar entry.
Proof.
  unfold is_a_jar, not_a_jar.
  destruct (Glob.ishidden entry), (Glob.fnmatch_star ".jar" entry); auto.
Qed.

(** X14. The matches of [./build/libs/*.jar] are the entries of the
    directory that do not start with a dot and end in [.jar], in the order
    of the listing, each under [./build/libs/]: there is no match exactly
    when no entry is such a file, and otherwise the first match is the
    first such entry and the other matches come from the entries after
    it. *)
Theorem glob_selects_visible_jars (listing : list string) :
  (Glob.glob application_path ".jar" listing = []
   <-> Forall not_a_jar listing)
  /\ forall f rest,
       Glob.glob application_path ".jar" listing = f :: rest ->
       exists skipped entry more,
         listing = skipped ++ entry :: more
         /\ Forall not_a_jar skipped
         /\ is_a_jar entry
         /\ f = "./build/libs/" +:+ entry
         /\ rest = Glob.glob application_path ".jar" more.
Proof.
  induction listing as [|x listing [IHnil IHcons]].
  - split; [split; [constructor|reflexivity]|]. discriminate.
  - destruct (jar_or_not x) as [Hj|Hn].
    + pose proof (@glob_first_match [] x listing (Forall_nil _) Hj) as Hg.
      cbn [app] in Hg. rewrite Hg. split.
      * split; [discriminate|].
        intros H. inversion H as [|? ? Hx _]; subst.
        destruct Hj as [Hh Hm]. destruct Hx as [Hx|Hx]; congruence.
      * intros f rest [= <- <-].
        exists [], x, listing. repeat split; auto; apply Hj.
    + assert (Hg : Glob.glob application_path ".jar" (x :: listing)
                   = Glob.glob application_path ".jar" listing).
      { unfold Glob.glob. cbn [filter].
        destruct Hn as [Hx|Hx].
        - now rewrite Hx.
        - destruct (Glob.ishidden x); cbn [negb filter]; [reflexivity|].
          now rewrite Hx. }
      rewrite Hg. split.
      * split.
        -- intros H. constructor; [exact Hn|now apply IHnil].
        -- intros H. inversion H; subst. now apply IHnil.
      * intros f rest H.
        destruct (IHcons f rest H)
          as (skipped & entry & more & -> & Hs & He & Hf & Hr).
        exists (x :: skipped), entry, more. repeat split; auto; apply He.
Qed.

Lemma glob_selects_visible_jars_witness :
  exists skipped entry more,
    [".cache.jar"; "README"; "a.jar"; "b.jar"] = skipped ++ entry :: more
    /\ Forall not_a_jar skipped
    /\ is_a_jar entry
    /\ "./build/libs/a.jar" = "./build/libs/" +:+ entry
    /\ ["./build/libs/b.jar"] = Glob.glob application_path ".jar" more.
Proof.
  exact (proj2 (glob_selects_visible_jars
                  [".cache.jar"; "README"; "a.jar"; "b.jar"])
           "./build/libs/a.jar" ["./build/libs/b.jar"] eq_refl).
Defined.

(** ** The module-level list over a run *)

Lemma bind_keeps A B (m : M A) (k : A -> M B) :
  keeps_globals m -> (forall a, keeps_globals (k a)) ->
  keeps_globals (bind m k).
Proof.
  intros Hm Hk g. rewrite bind_globals, Hm.
  destruct (outcome_of (m g)); [apply Hk|reflexivity|reflexivity].
Qed.

Lemma call_keeps A rq inj (r : reply A) : keeps_globals (call rq inj r).
Proof. intros g. apply call_globals. Qed.

(** Walks through a piece of the script for [keeps_globals]. *)
Ltac walk_keeps :=
  repeat
    match goal with
    | |- keeps_globals (bind _ _) => apply bind_keeps; [|intros]
    | |- keeps_globals (call _ _ _) => apply call_keeps
    | |- keeps_globals (emit _) => intros ?; reflexivity
    | |- keeps_globals (print _) => intros ?; reflexivity
    | |- keeps_globals (sleep _) => intros ?; reflexivity
    | |- keeps_globals (ret _) => intros ?; reflexivity
    | |- keeps_globals (raise _) => intros ?; reflexivity
    | |- keeps_globals still_polling => intros ?; reflexivity
    | |- keeps_globals (if ?b then _ else _) => destruct b
    | |- keeps_globals (match ?x with _ => _ end) => destruct x
    end.

Lemma wait_loop_keeps w fuel :
  forall k cfg printed, keeps_globals (wait_loop w fuel k cfg printed).
Proof.
  induction fuel as [|fuel IH]; intros k cfg printed; simpl;
    destruct (in_progress cfg); try (intros ?; reflexivity).
  unfold poll. walk_keeps. apply IH.
Qed.

Lemma upload_and_register_keeps w pkg :
  keeps_globals (upload_and_register w pkg).
Proof.
  unfold upload_and_register, upload_application_version, register_version,
    print_response.
  walk_keeps.
Qed.

Lemma await_and_decide_keeps w fuel label :
  keeps_globals (cfg <- await_environment w fuel ;;
                 create_or_update w label cfg).
Proof.
  unfold await_environment, poll, create_or_update, print_response.
  walk_keeps. apply wait_loop_keeps.
Qed.

Lemma register_new_version_globals w g :
  globals_of (register_new_version w g)
  = match outcome_of (ensure_application w g) with
    | Ok _ =>
        match outcome_of (build_application w g) with
        | Ok _ => globals_of (package_application w g)
        | _ => g
        end
    | _ => g
    end.
Proof.
  unfold register_new_version.
  rewrite bind_globals, ensure_application_globals.
  destruct (outcome_of (ensure_application w g)); try reflexivity.
  rewrite bind_globals.
  change (outcome_of (print MsgBuild g)) with (Ok (A:=unit) tt).
  change (globals_of (print MsgBuild g)) with g.
  cbv iota. rewrite bind_globals, build_application_globals.
  destruct (outcome_of (build_application w g)); try reflexivity.
  rewrite bind_globals.
  change (outcome_of (print MsgPackage g)) with (Ok (A:=unit) tt).
  change (globals_of (print MsgPackage g)) with g.
  cbv iota. rewrite bind_globals.
  destruct (outcome_of (package_application w g)) as [pkg|x|];
    try reflexivity.
  apply (upload_and_register_keeps w pkg).
Qed.

(** X15. Over a whole run the module-level list of files changes in one
    way only: when the application step and the build step end well and
    packaging locates an artifact, its path is appended, once; whatever
    fails later, nothing is removed and nothing else is added. *)
Theorem run_appends_at_most_one_path (w : World) (fuel : nat) (g : globals) :
  elasticbeanstalk_files_list (globals_of (main w fuel g))
  = elasticbeanstalk_files_list g
    ++ match outcome_of (ensure_application w g) with
       | Ok _ =>
           match outcome_of (build_application w g) with
           | Ok _ => match located w with Some f => [f] | None => [] end
           | _ => []
           end
       | _ => []
       end.
Proof.
  unfold main. rewrite bind_globals.
  assert (H : elasticbeanstalk_files_list (globals_of (main w fuel g))
              = elasticbeanstalk_files_list
                  (globals_of (register_new_version w g))).
  { unfold main. rewrite bind_globals.
    destruct (outcome_of (register_new_version w g)); try reflexivity.
    now rewrite (await_and_decide_keeps w fuel a). }
  unfold main in H. rewrite bind_globals in H. rewrite H.
  rewrite register_new_version_globals.
  destruct (outcome_of (ensure_application w g));
    try (now rewrite app_nil_r).
  destruct (outcome_of (build_application w g));
    try (now rewrite app_nil_r).
  apply package_application_files_list.
Qed.

(** ** Uploads over a whole run *)

Lemma put_after_ensure_app known t1 t2 :
  put_after_ensure known (t1 ++ t2)
  = put_after_ensure known t1
    && put_after_ensure (known_after known t1) t2.
Proof.
  revert known. induction t1 as [|e t1 IH]; intros known; [reflexivity|].
  destruct e as [| | | | | |rq rs| ]; cbn [app put_after_ensure known_after];
    try apply IH.
  destruct rq; try apply IH; destruct rs; try apply IH;
    now rewrite IH, andb_assoc.
Qed.

Lemma put_after_ensure_no_put t :
  Forall (no_request is_put_object) t ->
  forall known, put_after_ensure known t = true.
Proof.
  induction 1 as [|e t He _ IH]; intros known; [reflexivity|].
  destruct e as [| | | | | |rq rs| ]; cbn [put_after_ensure]; try apply IH.
  destruct rq; try discriminate He; try apply IH; destruct rs; apply IH.
Qed.

Lemma upload_application_version_put_after_ensure w pkg g known :
  put_after_ensure known (trace_of (upload_application_version w pkg g))
  = true.
Proof.
  destruct (sts_account w) as [account|x] eqn:Ha;
    [|unfold upload_application_version; rewrite Ha; reflexivity].
  destruct (s3_buckets w) as [all|x] eqn:Hb;
    [|unfold upload_application_version; rewrite Ha, Hb; reflexivity].
  rewrite (upload_application_version_eq w pkg g Ha Hb). cbv zeta.
  generalize (source_bundle_s3_bucket_prefix +:+ "-" +:+ region_name w
              +:+ "-" +:+ account) as bucket.
  intros bucket. unfold bucket_in.
  destruct (existsb (String.eqb bucket) all) eqn:Hin.
  - destruct (s3_put_object w); simpl; rewrite existsb_app, Hin;
      reflexivity.
  - destruct (s3_create_bucket w); [|reflexivity].
    destruct (s3_put_object w); simpl; rewrite String.eqb_refl;
      reflexivity.
Qed.

Lemma register_version_no_put w pkg bucket g :
  Forall (no_request is_put_object)
         (trace_of (register_version w pkg bucket g)).
Proof.
  unfold register_version, print_response. walk; try exact I; reflexivity.
Qed.

Lemma await_and_decide_no_put w fuel label g :
  Forall (no_request is_put_object)
    (trace_of ((cfg <- await_environment w fuel ;;
                create_or_update w label cfg) g)).
Proof.
  unfold create_or_update, print_response. walk; try exact I;
    try reflexivity.
  apply await_environment_Forall; intros; exact I || reflexivity.
Qed.

Lemma archive_free_no_put t :
  Forall archive_free t -> Forall (no_request is_put_object) t.
Proof.
  apply Forall_impl. intros [] H; simpl in *; auto.
Qed.

(** X16. In every run, whatever the services answer, each put-object goes
    to a bucket that an earlier listing of the same run has shown or that
    the run has just created with success: the run never uploads into a
    bucket it has not seen to exist. *)
Theorem run_puts_after_ensure (w : World) (fuel : nat) (g : globals) :
  put_after_ensure [] (trace_of (main w fuel g)) = true.
Proof.
  unfold main. rewrite bind_trace, put_after_ensure_app.
  apply andb_true_intro. split.
  - rewrite register_new_version_phases. cbv zeta.
    rewrite put_after_ensure_app,
      (put_after_ensure_no_put
         (archive_free_no_put (ensure_application_archive_free w g))).
    destruct (outcome_of (ensure_application w g)); try reflexivity.
    cbn [andb put_after_ensure].
    rewrite put_after_ensure_app,
      (put_after_ensure_no_put
         (archive_free_no_put (build_application_archive_free w g))).
    destruct (outcome_of (build_application w g)); try reflexivity.
    cbn [andb put_after_ensure].
    rewrite put_after_ensure_app,
      (put_after_ensure_no_put
         (package_application_Forall w (no_request is_put_object)
            (fun _ _ => I) (fun _ => I) (fun _ _ => I) g)).
    destruct (outcome_of (package_application w g)) as [pkg|x|];
      try reflexivity.
    rewrite upload_and_register_trace. cbv zeta.
    cbn [andb put_after_ensure].
    rewrite put_after_ensure_app,
      upload_application_version_put_after_ensure.
    destruct (outcome_of (upload_application_version w pkg _));
      try reflexivity.
    apply put_after_ensure_no_put, register_version_no_put.
  - destruct (outcome_of (register_new_version w g)); try reflexivity.
    apply put_after_ensure_no_put, await_and_decide_no_put.
Qed.
